(** * Behavioural-cloning module of ml-agents (TorchBCModule)

    A shallow embedding of
    [mlagents/trainers/components/bc/module_torch.py] and the
    properties of its update loop and of its loss.

    Conventions of the embedding.
    - Python integers are [Z]; [//] is floor division ([Z.div]) and
      raises [ZeroDivisionError] on a zero divisor; [range n] is empty
      for [n <= 0].
    - Floats that are only compared ([current_lr]) are rationals [Q]:
      every finite float is one.  Floats that are computed with (tensor
      entries, losses) are idealised to real numbers and rounding is
      not modelled; [NaN] is kept as a separate value because
      [np.mean] of an empty list produces it.
    - Tensors taking part in the loss are two-dimensional, a list of
      rows.  Element-wise operations are defined on operands of equal
      shape (they pair entries position by position); their
      broadcasting and shape errors are outside the model.
      [torch.stack] refuses tensors of unequal shape.
    - Objects owned by other modules (network parameters, optimiser
      state, random generators, the demonstration buffer) are abstract
      and collected in the interface [Externals]. *)

From Stdlib Require Import String DecimalString ZArith Bool Lia.
From Stdlib Require Import QArith Reals Lra List.
Import ListNotations.

Open Scope Z_scope.

(** ** Python exceptions and results *)

Inductive exn : Type :=
| ZeroDivisionError
| ValueError
| TypeError
| RuntimeError.

Inductive result (A : Type) : Type :=
| Ok (a : A)
| Raise (e : exn).

Arguments Ok {A} a.
Arguments Raise {A} e.

(** [a // b] of Python. *)
Definition floordiv (a b : Z) : result Z :=
  if b =? 0 then Raise ZeroDivisionError else Ok (a / b).

(** [range(n)] of Python. *)
Definition range (n : Z) : list Z :=
  map Z.of_nat (seq 0 (Z.to_nat n)).

(** ** Scalars and tensors *)

Inductive scalar : Type :=
| Real (r : R)
| NaN.

Definition Tensor : Type := list (list R).

Fixpoint zip_with {A B C : Type} (f : A -> B -> C)
         (xs : list A) (ys : list B) : list C :=
  match xs, ys with
  | x :: xs', y :: ys' => f x y :: zip_with f xs' ys'
  | _, _ => []
  end.

Definition Rsum (xs : list R) : R := fold_right Rplus 0%R xs.

(** The mean of a collection of reals; an empty collection has mean
    [NaN], in torch as in numpy. *)
Definition mean_of (xs : list R) : scalar :=
  match xs with
  | [] => NaN
  | _ :: _ => Real (Rsum xs / INR (length xs))
  end.

(** Same number of rows, and row by row the same number of columns. *)
Fixpoint same_shape (a b : Tensor) : bool :=
  match a, b with
  | [], [] => true
  | r :: a', s :: b' =>
      Nat.eqb (length r) (length s) && same_shape a' b'
  | _, _ => false
  end.

(** The part of torch the module calls, on two-dimensional tensors. *)
Module torch.

Definition sub (a b : Tensor) : Tensor := zip_with (zip_with Rminus) a b.

Definition mul (a b : Tensor) : Tensor := zip_with (zip_with Rmult) a b.

Definition neg (a : Tensor) : Tensor := map (map Ropp) a.

Definition square (a : Tensor) : Tensor := map (map (fun x => x * x)%R) a.

(** [torch.mean] of a two-dimensional tensor: over all its entries. *)
Definition mean (a : Tensor) : scalar := mean_of (concat a).

(** [torch.stack]: the tensors become the slices of a tensor of one
    more dimension; an empty list is refused, and so is a list whose
    tensors do not all have the shape of the first. *)
Definition stack (ts : list Tensor) : result (list Tensor) :=
  match ts with
  | [] => Raise RuntimeError
  | t :: ts' =>
      if forallb (same_shape t) ts' then Ok ts else Raise RuntimeError
  end.

(** [torch.mean] of a three-dimensional tensor. *)
Definition mean3 (ts : list Tensor) : scalar :=
  mean_of (concat (map (@concat R) ts)).

(** [torch.nn.functional.mse_loss] with its default reduction:
    [mean((input - target) ** 2)]. *)
Definition mse_loss (input target : Tensor) : scalar :=
  mean (square (sub input target)).

(** Sums of the columns of a list of rows. *)
Fixpoint column_sums (rows : list (list R)) : list R :=
  match rows with
  | [] => []
  | [r] => r
  | r :: rs => zip_with Rplus r (column_sums rs)
  end.

(** [torch.nn.functional.log_softmax(input, dim)]: along dimension 0
    every column is normalised over the rows (the samples of the
    batch), along dimension 1 every row over its columns. *)
Definition log_softmax (input : Tensor) (dim : nat) : Tensor :=
  match dim with
  | O =>
      let z := column_sums (map (map exp) input) in
      map (fun row => zip_with (fun x s => x - ln s)%R row z) input
  | S _ =>
      map (fun row =>
             let s := Rsum (map exp row) in
             map (fun x => x - ln s)%R row) input
  end.

End torch.

(** Modelled from the spec: [ModelUtils.break_into_branches] of
    [mlagents.trainers.torch.utils], which is not among the sources.
    It splits the concatenated log-probabilities into per-branch
    groups, one group per discrete action dimension: branch [i] keeps
    the columns from the sum of the sizes before it up to that sum
    plus its own size.  Branch sizes are counts, hence [nat]. *)
Module ModelUtils.

Fixpoint cumsum (acc : nat) (xs : list nat) : list nat :=
  match xs with
  | [] => []
  | x :: xs' => (acc + x)%nat :: cumsum (acc + x) xs'
  end.

(** The Python slice [row[a:b]] for [0 <= a]. *)
Definition slice {A : Type} (a b : nat) (row : list A) : list A :=
  firstn (b - a) (skipn a row).

Definition break_into_branches (concatenated_logits : Tensor)
           (action_size : list nat) : list Tensor :=
  let action_idx := O :: cumsum 0 action_size in
  map (fun i =>
         map (slice (nth i action_idx O) (nth (S i) action_idx O))
             concatenated_logits)
      (seq 0 (length action_size)).

End ModelUtils.

(** [np.mean] of a list of scalar losses. *)
Fixpoint reals_of (xs : list scalar) : option (list R) :=
  match xs with
  | [] => Some []
  | Real r :: xs' =>
      match reals_of xs' with
      | Some rs => Some (r :: rs)
      | None => None
      end
  | NaN :: _ => None
  end.

Definition np_mean (xs : list scalar) : scalar :=
  match reals_of xs with
  | Some rs => mean_of rs
  | None => NaN
  end.

(** [np.ones((rows, cols))]; a negative dimension is refused. *)
Definition np_ones (rows cols : Z) : result Tensor :=
  if (rows <? 0) || (cols <? 0) then Raise ValueError
  else Ok (repeat (repeat 1%R (Z.to_nat cols)) (Z.to_nat rows)).

(** [range(0, stop, step)] of Python. *)
Definition range_step (stop step : Z) : result (list Z) :=
  if step =? 0 then Raise ValueError
  else if step <? 0 then Ok []
  else Ok (map (fun k => k * step) (range ((stop + step - 1) / step))).

(** ** The collaborators of the module *)

(** The expert actions handed to the loss: one float tensor for a
    continuous action space, one one-hot tensor per branch for a
    discrete one. *)
Inductive ExpertActions : Type :=
| ExpertTensor (t : Tensor)
| ExpertBranches (ts : list Tensor).

Record BehaviorSpec : Type := {
  discrete_action_branches : list nat
}.

Module Settings.

Record BehavioralCloningSettings : Type := {
  demo_path : string;
  strength : Q;
  steps : Z;
  batch_size : option Z;
  num_epoch : option Z;
  samples_per_update : Z
}.

End Settings.

(** What the module uses and does not define: the network and its
    optimiser, the random generators, the demonstration buffer and the
    conversions of [ModelUtils].  [gradient_step] stands for
    [optimizer.zero_grad(); bc_loss.backward(); optimizer.step()]: the
    new parameters and optimiser state depend on the parameters, on the
    generator the sample was drawn with and on the data the loss was
    computed from. *)
Class Externals : Type := {
  Params : Type;
  Optimizer : Type;
  RandomState : Type;
  AgentBuffer : Type;
  Array : Type;
  TorchTensor : Type;
  Adam : Params -> Q -> Optimizer;
  demo_to_buffer : string -> Z -> BehaviorSpec -> AgentBuffer;
  num_experiences : AgentBuffer -> Z;
  buffer_shuffle : AgentBuffer -> Z -> RandomState -> AgentBuffer * RandomState;
  buffer_make_mini_batch : AgentBuffer -> Z -> Z -> AgentBuffer;
  buffer_field : AgentBuffer -> string -> list Array;
  list_to_tensor : list Array -> TorchTensor;
  array_to_tensor : Array -> TorchTensor;
  list_to_float_tensor : list Array -> Tensor;
  list_to_long_tensor : list Array -> list (list Z);
  actions_to_onehot : list (list Z) -> list nat -> list Tensor;
  sample_actions :
    Params -> RandomState ->
    list TorchTensor -> list TorchTensor -> option Tensor ->
    list TorchTensor -> Z ->
    Tensor * Tensor * RandomState;
  gradient_step :
    Params -> Optimizer -> RandomState ->
    list TorchTensor -> list TorchTensor -> option Tensor ->
    list TorchTensor -> ExpertActions ->
    Params * Optimizer
}.

Section Module_torch.

Context {E : Externals}.

Record TorchPolicy : Type := {
  actor_critic : Params;
  sequence_length : Z;
  behavior_spec : BehaviorSpec;
  use_continuous_act : bool;
  act_size : list nat;
  use_recurrent : bool;
  use_vis_obs : bool;
  visual_encoders : nat
}.

Record TorchBCModule : Type := {
  policy : TorchPolicy;
  current_lr : Q;
  optimizer : Optimizer;
  demonstration_buffer : AgentBuffer;
  batch_size : Z;
  num_epoch : Z;
  n_sequences : Z;
  has_updated : bool;
  self_use_recurrent : bool;
  samples_per_update : Z
}.

(** The calls [update] makes, in order: the shuffles of the buffer,
    the slices it asks of it, and the gradient steps, each with the
    loss it reported. *)
Inductive Call : Type :=
| CallShuffle (sequence_length : Z)
| CallMakeMiniBatch (start stop : Z)
| CallUpdateBatch (loss : scalar).

(** The module, the random generators and the calls made so far. *)
Record State : Type := {
  this : TorchBCModule;
  random_state : RandomState;
  calls : list Call
}.

(** *** State and exceptions *)

Definition M (A : Type) : Type := State -> result (A * State).

Definition ret {A : Type} (a : A) : M A := fun s => Ok (a, s).

Definition bind {A B : Type} (c : M A) (k : A -> M B) : M B :=
  fun s =>
    match c s with
    | Ok (a, s') => k a s'
    | Raise e => Raise e
    end.

Definition lift {A : Type} (r : result A) : M A :=
  fun s =>
    match r with
    | Ok a => Ok (a, s)
    | Raise e => Raise e
    end.

Definition get_self : M TorchBCModule := fun s => Ok (this s, s).

Definition put_self (m : TorchBCModule) : M unit :=
  fun s => Ok (tt, {| this := m; random_state := random_state s;
                      calls := calls s |}).

Definition get_random_state : M RandomState :=
  fun s => Ok (random_state s, s).

Definition put_random_state (g : RandomState) : M unit :=
  fun s => Ok (tt, {| this := this s; random_state := g;
                      calls := calls s |}).

Definition record_call (c : Call) : M unit :=
  fun s => Ok (tt, {| this := this s; random_state := random_state s;
                      calls := calls s ++ [c] |}).

(** A [for] loop that carries the local variables [acc]. *)
Fixpoint for_each {A B : Type} (xs : list A) (acc : B)
         (body : B -> A -> M B) : M B :=
  match xs with
  | [] => ret acc
  | x :: xs' => bind (body acc x) (fun acc' => for_each xs' acc' body)
  end.

Notation "x <- c ;; k" := (bind c (fun x => k))
  (at level 61, c at next level, right associativity).
Notation "c ;;; k" := (bind c (fun _ => k))
  (at level 61, right associativity).

(** *** The constructor *)

(** [value if value else default] for an optional integer setting:
    [None] and [0] are both false. *)
Definition or_default (value : option Z) (default : Z) : Z :=
  match value with
  | Some v => if v =? 0 then default else v
  | None => default
  end.

(** [TorchBCModule.__init__].  The buffer is what [demo_to_buffer]
    loads; the product of the two rates is taken exactly. *)
Definition __init__ (policy : TorchPolicy)
           (settings : Settings.BehavioralCloningSettings)
           (policy_learning_rate : Q)
           (default_batch_size default_num_epoch : Z)
  : result TorchBCModule :=
  let current_lr := (policy_learning_rate * Settings.strength settings)%Q in
  let params := actor_critic policy in
  let optimizer := Adam params current_lr in
  let demonstration_buffer :=
    demo_to_buffer (Settings.demo_path settings) (sequence_length policy)
                   (behavior_spec policy) in
  let batch_size := or_default (Settings.batch_size settings) default_batch_size in
  let num_epoch := or_default (Settings.num_epoch settings) default_num_epoch in
  match
    floordiv (Z.min batch_size (num_experiences demonstration_buffer))
             (sequence_length policy)
  with
  | Raise e => Raise e
  | Ok q =>
      Ok {| policy := policy;
            current_lr := current_lr;
            optimizer := optimizer;
            demonstration_buffer := demonstration_buffer;
            batch_size := batch_size;
            num_epoch := num_epoch;
            n_sequences := Z.max q 1;
            has_updated := false;
            self_use_recurrent := use_recurrent policy;
            samples_per_update := Settings.samples_per_update settings |}
  end.

(** *** The loss *)

(** [TorchBCModule._behavioral_cloning_loss].  Expert actions of the
    wrong kind for the action space are reported as [TypeError]. *)
Definition _behavioral_cloning_loss (self : TorchBCModule)
           (selected_actions log_probs : Tensor)
           (expert_actions : ExpertActions) : result scalar :=
  if use_continuous_act (policy self) then
    match expert_actions with
    | ExpertTensor e => Ok (torch.mse_loss selected_actions e)
    | ExpertBranches _ => Raise TypeError
    end
  else
    match expert_actions with
    | ExpertBranches es =>
        let log_prob_branches :=
          ModelUtils.break_into_branches log_probs
                                         (act_size (policy self)) in
        match
          torch.stack
            (map (fun '(log_prob_branch, expert_actions_branch) =>
                    torch.mul
                      (torch.neg (torch.log_softmax log_prob_branch 0))
                      expert_actions_branch)
                 (combine log_prob_branches es))
        with
        | Ok stacked => Ok (torch.mean3 stacked)
        | Raise e => Raise e
        end
    | ExpertTensor _ => Raise TypeError
    end.

(** *** One gradient step *)

(** ["visual_obs%d" % idx] *)
Definition visual_obs_key (idx : nat) : string :=
  ("visual_obs" ++ NilEmpty.string_of_uint (Nat.to_uint idx))%string.

(** The module after a gradient step has written the parameters of
    the policy and the state of the optimiser. *)
Definition set_networks (m : TorchBCModule) (p : Params) (o : Optimizer)
  : TorchBCModule :=
  {| policy :=
       {| actor_critic := p;
          sequence_length := sequence_length (policy m);
          behavior_spec := behavior_spec (policy m);
          use_continuous_act := use_continuous_act (policy m);
          act_size := act_size (policy m);
          use_recurrent := use_recurrent (policy m);
          use_vis_obs := use_vis_obs (policy m);
          visual_encoders := visual_encoders (policy m) |};
     current_lr := current_lr m;
     optimizer := o;
     demonstration_buffer := demonstration_buffer m;
     batch_size := batch_size m;
     num_epoch := num_epoch m;
     n_sequences := n_sequences m;
     has_updated := has_updated m;
     self_use_recurrent := self_use_recurrent m;
     samples_per_update := samples_per_update m |}.

(** [TorchBCModule._update_batch].  The memories are handed to the
    sampler as the list the source stacks; the argument
    [n_sequences] is not read, in the source either. *)
Definition _update_batch (mini_batch_demo : AgentBuffer)
           (n_sequences_arg : Z) : M scalar :=
  self <- get_self ;;
  let vec_obs := [list_to_tensor (buffer_field mini_batch_demo "vector_obs")] in
  targets <-
    (if use_continuous_act (policy self) then
       ret (ExpertTensor
              (list_to_float_tensor (buffer_field mini_batch_demo "actions")),
            None)
     else
       let raw_expert_actions :=
         list_to_long_tensor (buffer_field mini_batch_demo "actions") in
       let expert_actions :=
         actions_to_onehot raw_expert_actions (act_size (policy self)) in
       act_masks <-
         lift (np_ones
                 (n_sequences self * sequence_length (policy self))
                 (Z.of_nat
                    (list_sum
                       (discrete_action_branches
                          (behavior_spec (policy self)))))) ;;
       ret (ExpertBranches expert_actions, Some act_masks)) ;;
  let expert_actions := fst targets in
  let act_masks := snd targets in
  let memory := buffer_field mini_batch_demo "memory" in
  indices <-
    lift (range_step (Z.of_nat (length memory))
                     (sequence_length (policy self))) ;;
  let memories :=
    flat_map (fun i =>
                match nth_error memory (Z.to_nat i) with
                | Some a => [array_to_tensor a]
                | None => []
                end) indices in
  let vis_obs :=
    if use_vis_obs (policy self) then
      map (fun idx =>
             list_to_tensor
               (buffer_field mini_batch_demo (visual_obs_key idx)))
          (seq 0 (visual_encoders (policy self)))
    else [] in
  g <- get_random_state ;;
  let '(selected_actions, all_log_probs, g') :=
    sample_actions (actor_critic (policy self)) g vec_obs vis_obs
                   act_masks memories (sequence_length (policy self)) in
  put_random_state g' ;;;
  bc_loss <-
    lift (_behavioral_cloning_loss self selected_actions all_log_probs
                                   expert_actions) ;;
  let '(params', optimizer') :=
    gradient_step (actor_critic (policy self)) (optimizer self) g
                  vec_obs vis_obs act_masks memories expert_actions in
  put_self (set_networks self params' optimizer') ;;;
  record_call (CallUpdateBatch bc_loss) ;;;
  ret bc_loss.


(** *** The update *)

Inductive PyValue : Type :=
| PyInt (z : Z)
| PyFloat (x : scalar).

Definition Metrics : Type := list (string * PyValue).

(** The value is the number 0, as Python's [v == 0] has it: the
    integer 0 or a float that is 0; [NaN] is not. *)
Definition is_zero (v : PyValue) : Prop :=
  match v with
  | PyInt z => z = 0
  | PyFloat (Real r) => r = 0%R
  | PyFloat NaN => False
  end.

Definition set_demonstration_buffer (m : TorchBCModule) (b : AgentBuffer)
  : TorchBCModule :=
  {| policy := policy m;
     current_lr := current_lr m;
     optimizer := optimizer m;
     demonstration_buffer := b;
     batch_size := batch_size m;
     num_epoch := num_epoch m;
     n_sequences := n_sequences m;
     has_updated := has_updated m;
     self_use_recurrent := self_use_recurrent m;
     samples_per_update := samples_per_update m |}.

Definition set_has_updated (m : TorchBCModule) (b : bool)
  : TorchBCModule :=
  {| policy := policy m;
     current_lr := current_lr m;
     optimizer := optimizer m;
     demonstration_buffer := demonstration_buffer m;
     batch_size := batch_size m;
     num_epoch := num_epoch m;
     n_sequences := n_sequences m;
     has_updated := b;
     self_use_recurrent := self_use_recurrent m;
     samples_per_update := samples_per_update m |}.

(** [self.demonstration_buffer.shuffle(sequence_length=...)] *)
Definition shuffle (sequence_length : Z) : M unit :=
  self <- get_self ;;
  g <- get_random_state ;;
  let '(b', g') :=
    buffer_shuffle (demonstration_buffer self) sequence_length g in
  put_self (set_demonstration_buffer self b') ;;;
  put_random_state g' ;;;
  record_call (CallShuffle sequence_length).

(** [demo_update_buffer.make_mini_batch(start, end)] *)
Definition make_mini_batch (start stop : Z) : M AgentBuffer :=
  self <- get_self ;;
  record_call (CallMakeMiniBatch start stop) ;;;
  ret (buffer_make_mini_batch (demonstration_buffer self) start stop).

Definition loss_key : string := "Losses/Pretraining Loss".

(** The body of the loop over the mini-batches of an epoch. *)
Definition train_on_slice (batch_losses : list scalar) (i : Z)
  : M (list scalar) :=
  self <- get_self ;;
  let start := i * n_sequences self * sequence_length (policy self) in
  let stop := (i + 1) * n_sequences self * sequence_length (policy self) in
  mini_batch_demo <- make_mini_batch start stop ;;
  self <- get_self ;;
  run_out <- _update_batch mini_batch_demo (n_sequences self) ;;
  let loss := run_out in
  ret (batch_losses ++ [loss]).

(** The body of the loop over the epochs. *)
Definition train_epoch (possible_batches max_batches : Z)
           (batch_losses : list scalar) (_ : Z) : M (list scalar) :=
  self <- get_self ;;
  shuffle (sequence_length (policy self)) ;;;
  let num_batches :=
    if max_batches =? 0 then possible_batches
    else Z.min possible_batches max_batches in
  self <- get_self ;;
  n <- lift (floordiv num_batches (sequence_length (policy self))) ;;
  for_each (range n) batch_losses train_on_slice.

(** [TorchBCModule.update] *)
Definition update : M Metrics :=
  self <- get_self ;;
  if Qle_bool (current_lr self) 0 then
    ret [(loss_key, PyInt 0)]
  else
    let batch_losses := [] in
    possible_demo_batches <-
      lift (floordiv (num_experiences (demonstration_buffer self))
                     (n_sequences self)) ;;
    let possible_batches := possible_demo_batches in
    max_batches <-
      lift (floordiv (samples_per_update self) (n_sequences self)) ;;
    let n_epoch := num_epoch self in
    batch_losses <-
      for_each (range n_epoch) batch_losses
               (train_epoch possible_batches max_batches) ;;
    self <- get_self ;;
    put_self (set_has_updated self true) ;;;
    let update_stats := [(loss_key, PyFloat (np_mean batch_losses))] in
    ret update_stats.

(** The orchestrator sets the learning rate from outside between two
    updates. *)
Definition set_current_lr (m : TorchBCModule) (lr : Q) : TorchBCModule :=
  {| policy := policy m;
     current_lr := lr;
     optimizer := optimizer m;
     demonstration_buffer := demonstration_buffer m;
     batch_size := batch_size m;
     num_epoch := num_epoch m;
     n_sequences := n_sequences m;
     has_updated := has_updated m;
     self_use_recurrent := self_use_recurrent m;
     samples_per_update := samples_per_update m |}.

Definition set_samples_per_update (m : TorchBCModule) (spu : Z)
  : TorchBCModule :=
  {| policy := policy m;
     current_lr := current_lr m;
     optimizer := optimizer m;
     demonstration_buffer := demonstration_buffer m;
     batch_size := batch_size m;
     num_epoch := num_epoch m;
     n_sequences := n_sequences m;
     has_updated := has_updated m;
     self_use_recurrent := self_use_recurrent m;
     samples_per_update := spu |}.

(** A training run as the module sees it: one [update] per entry,
    each after the learning rate has been set to that entry. *)
Fixpoint updates (lrs : list Q) : M (list Metrics) :=
  match lrs with
  | [] => ret []
  | lr :: lrs' =>
      self <- get_self ;;
      put_self (set_current_lr self lr) ;;;
      stats <- update ;;
      rest <- updates lrs' ;;
      ret (stats :: rest)
  end.

(** The same state with the cap on the samples lifted. *)
Definition unbounded (st : State) : State :=
  {| this := set_samples_per_update (this st) 0;
     random_state := random_state st;
     calls := calls st |}.

(** *** Quantities the properties speak of *)

Definition possible_batches (m : TorchBCModule) : Z :=
  num_experiences (demonstration_buffer m) / n_sequences m.

Definition max_batches (m : TorchBCModule) : Z :=
  samples_per_update m / n_sequences m.

Definition num_batches (m : TorchBCModule) : Z :=
  if max_batches m =? 0 then possible_batches m
  else Z.min (possible_batches m) (max_batches m).

(** Gradient steps of one epoch. *)
Definition steps_per_epoch (m : TorchBCModule) : nat :=
  Z.to_nat (num_batches m / sequence_length (policy m)).

(** The calls of one epoch, as the specification lists them. *)
Definition slice_of (m : TorchBCModule) (i : Z) : Z * Z :=
  (i * n_sequences m * sequence_length (policy m),
   (i + 1) * n_sequences m * sequence_length (policy m)).

Fixpoint slices (cs : list Call) : list (Z * Z) :=
  match cs with
  | [] => []
  | CallMakeMiniBatch a b :: cs' => (a, b) :: slices cs'
  | _ :: cs' => slices cs'
  end.

Fixpoint losses (cs : list Call) : list scalar :=
  match cs with
  | [] => []
  | CallUpdateBatch l :: cs' => l :: losses cs'
  | _ :: cs' => losses cs'
  end.

Fixpoint shuffles (cs : list Call) : nat :=
  match cs with
  | [] => O
  | CallShuffle _ :: cs' => S (shuffles cs')
  | _ :: cs' => shuffles cs'
  end.

(** The calls of one epoch whose gradient steps reported the losses
    [ls]: a shuffle, then for each slice in turn the request for it
    and the gradient step. *)
Definition slice_calls (m : TorchBCModule) (il : Z * scalar) : list Call :=
  [CallMakeMiniBatch (fst (slice_of m (fst il))) (snd (slice_of m (fst il)));
   CallUpdateBatch (snd il)].

Definition epoch_calls (m : TorchBCModule) (ls : list scalar) : list Call :=
  CallShuffle (sequence_length (policy m))
  :: flat_map (slice_calls m)
              (combine (range (Z.of_nat (length ls))) ls).

(** The fields no method assigns after construction; [has_updated],
    the networks and the buffer are the ones that change. *)
Definition settings_of (m : TorchBCModule) :=
  (current_lr m, batch_size m, num_epoch m, n_sequences m,
   self_use_recurrent m, samples_per_update m,
   (sequence_length (policy m), behavior_spec (policy m),
    use_continuous_act (policy m), act_size (policy m),
    use_recurrent (policy m), use_vis_obs (policy m),
    visual_encoders (policy m))).

(** [b'] is [b] after some shuffles. *)
Inductive shuffled (b : AgentBuffer) : AgentBuffer -> Prop :=
| shuffled_refl : shuffled b b
| shuffled_step b1 s g :
    shuffled b b1 -> shuffled b (fst (buffer_shuffle b1 s g)).

End Module_torch.

(** ** The losses as the specification words them *)

(** Continuous actions: the squared differences of sampled and expert
    actions, entry by entry, averaged over all entries. *)
Definition mean_squared_error (sampled expert : Tensor) : scalar :=
  mean_of (zip_with (fun x y => Rsqr (x - y)) (concat sampled) (concat expert)).

(** Discrete actions, one sample of one branch: the cross-entropy of
    the expert's one-hot action against the log-probabilities of the
    sample, normalised over the actions of the branch. *)
Definition sample_cross_entropy (log_probs one_hot : list R) : R :=
  let z := ln (Rsum (map exp log_probs)) in
  Rsum (zip_with (fun lp h => - (lp - z) * h)%R log_probs one_hot).

(** One branch: the cross-entropies of its samples averaged over the
    batch. *)
Definition branch_cross_entropy (log_probs one_hot : Tensor) : scalar :=
  mean_of (zip_with sample_cross_entropy log_probs one_hot).

(** All branches: the mean over the branches. *)
Definition cross_entropy_loss (act_size : list nat) (log_probs : Tensor)
           (expert_actions : list Tensor) : scalar :=
  np_mean (map (fun '(log_prob_branch, expert_actions_branch) =>
                  branch_cross_entropy log_prob_branch expert_actions_branch)
               (combine (ModelUtils.break_into_branches log_probs act_size)
                        expert_actions)).

(** The same products as the code stacks, with the normalisation over
    the actions of the branch (dimension 1), averaged over all
    entries. *)
Definition entrywise_cross_entropy_loss (act_size : list nat)
           (log_probs : Tensor) (expert_actions : list Tensor) : scalar :=
  torch.mean3
    (map (fun '(log_prob_branch, expert_actions_branch) =>
            torch.mul (torch.neg (torch.log_softmax log_prob_branch 1))
                      expert_actions_branch)
         (combine (ModelUtils.break_into_branches log_probs act_size)
                  expert_actions)).

(** ** Auxiliary notions of the proofs *)

(** [z] bounds the exponentials of [row], position by position. *)
Definition dominates (z row : list R) : Prop :=
  Forall (fun p => exp (fst p) <= snd p)%R (combine row z).

(** ** A small world to run the module in

    Experiences are integers; the buffer is a list of them, shuffled by
    reversal and sliced as Python slices a list; the network is a
    counter of the gradient steps taken; the sampler proposes the
    observation it is shown, which the expert exceeds by one. *)
Module Demo.

Definition env : Externals :=
  {| Params := Z;
     Optimizer := Z;
     RandomState := Z;
     AgentBuffer := list Z;
     Array := Z;
     TorchTensor := list Z;
     Adam := fun _ _ => 0;
     demo_to_buffer := fun _ _ _ => [1; 2; 3; 4; 5; 6; 7; 8];
     num_experiences := fun b => Z.of_nat (length b);
     buffer_shuffle := fun b _ g => (rev b, g + 1);
     buffer_make_mini_batch :=
       fun b start stop =>
         firstn (Z.to_nat (stop - start)) (skipn (Z.to_nat start) b);
     buffer_field := fun b _ => b;
     list_to_tensor := fun xs => xs;
     array_to_tensor := fun x => [x];
     list_to_float_tensor := map (fun a => [IZR (a + 1)]);
     list_to_long_tensor := map (fun a => [a]);
     actions_to_onehot :=
       fun raw _ => [map (fun _ => [1%R; 0%R]) raw];
     sample_actions :=
       fun _ g vec_obs _ _ _ _ =>
         (map (fun a => [IZR a]) (concat vec_obs),
          map (fun _ => [0%R; 0%R]) (concat vec_obs),
          g + 1);
     gradient_step := fun p o _ _ _ _ _ _ => (p + 1, o + 1) |}.

Definition demo_policy : TorchPolicy (E := env) :=
  {| actor_critic := (0 : @Params env);
     sequence_length := 2;
     behavior_spec := {| discrete_action_branches := [] |};
     use_continuous_act := true;
     act_size := [1%nat];
     use_recurrent := false;
     use_vis_obs := false;
     visual_encoders := 0 |}.

Definition demo_settings : Settings.BehavioralCloningSettings :=
  {| Settings.demo_path := "demo.demo";
     Settings.strength := 1 # 2;
     Settings.steps := 0;
     Settings.batch_size := Some 4;
     Settings.num_epoch := None;
     Settings.samples_per_update := 0 |}.

(** The module [__init__ demo_policy demo_settings (3 # 10000) 8 2]
    builds. *)
Definition demo_module : TorchBCModule (E := env) :=
  {| policy := demo_policy;
     current_lr := (3 # 10000) * (1 # 2);
     optimizer := (0 : @Optimizer env);
     demonstration_buffer := ([1; 2; 3; 4; 5; 6; 7; 8] : @AgentBuffer env);
     batch_size := 4;
     num_epoch := 2;
     n_sequences := 2;
     has_updated := false;
     self_use_recurrent := false;
     samples_per_update := 0 |}.

Definition start (m : TorchBCModule (E := env)) : State (E := env) :=
  {| this := m; random_state := (0 : @RandomState env); calls := [] |}.

(** A policy with one discrete branch of two actions. *)
Definition discrete_module : TorchBCModule (E := env) :=
  {| policy :=
       {| actor_critic := (0 : @Params env);
          sequence_length := 1;
          behavior_spec := {| discrete_action_branches := [2%nat] |};
          use_continuous_act := false;
          act_size := [2%nat];
          use_recurrent := false;
          use_vis_obs := false;
          visual_encoders := 0 |};
     current_lr := 3 # 20000;
     optimizer := (0 : @Optimizer env);
     demonstration_buffer := ([1; 2] : @AgentBuffer env);
     batch_size := 2;
     num_epoch := 1;
     n_sequences := 2;
     has_updated := false;
     self_use_recurrent := false;
     samples_per_update := 0 |}.

(** Two samples: the policy gives the two actions the probabilities
    1/2 and 1/2 in the first and 1/4 and 3/4 in the second; the
    expert chose the first action, then the second. *)
Definition two_log_probs : Tensor :=
  [[ln (1 / 2); ln (1 / 2)]; [ln (1 / 4); ln (3 / 4)]]%R.

Definition two_expert_actions : list Tensor :=
  [[[1; 0]; [0; 1]]]%R.

(** Two samples of sampled and of expert actions. *)
Definition two_selected_actions : Tensor := [[1; 2]; [3; 4]]%R.

Definition two_continuous_actions : Tensor := [[3 / 2; 2]; [2; 4]]%R.

(** The same module once annealing has brought the rate to zero. *)
Definition annealed_module : TorchBCModule (E := env) :=
  set_current_lr demo_module 0.

(** The same module with a cap of one sample, of a negative number
    of samples, and with one experience per mini-batch more than the
    buffer can fill a sequence with. *)
Definition small_cap_module : TorchBCModule (E := env) :=
  set_samples_per_update demo_module 1.

Definition negative_cap_module : TorchBCModule (E := env) :=
  set_samples_per_update demo_module (-1).

Definition long_sequence_module : TorchBCModule (E := env) :=
  {| policy :=
       {| actor_critic := (0 : @Params env);
          sequence_length := 5;
          behavior_spec := {| discrete_action_branches := [] |};
          use_continuous_act := true;
          act_size := [1%nat];
          use_recurrent := false;
          use_vis_obs := false;
          visual_encoders := 0 |};
     current_lr := 3 # 20000;
     optimizer := (0 : @Optimizer env);
     demonstration_buffer := ([1; 2; 3; 4; 5; 6; 7; 8] : @AgentBuffer env);
     batch_size := 4;
     num_epoch := 2;
     n_sequences := 2;
     has_updated := false;
     self_use_recurrent := false;
     samples_per_update := 0 |}.

(** What [update] returns on them. *)
Definition run (m : TorchBCModule (E := env))
  : Metrics * State (E := env) :=
  match update (start m) with
  | Ok out => out
  | Raise _ => ([], start m)
  end.

Definition trained : Metrics * State (E := env) :=
  Eval lazy -[Rplus Rminus Rmult Rdiv Rinv IZR INR] in run demo_module.

Definition small_cap_trained : Metrics * State (E := env) :=
  Eval lazy -[Rplus Rminus Rmult Rdiv Rinv IZR INR] in run small_cap_module.

Definition negative_cap_trained : Metrics * State (E := env) :=
  Eval lazy -[Rplus Rminus Rmult Rdiv Rinv IZR INR] in
    run negative_cap_module.

Definition long_sequence_trained : Metrics * State (E := env) :=
  Eval lazy -[Rplus Rminus Rmult Rdiv Rinv IZR INR] in
    run long_sequence_module.

(** Two more updates after the first, the rate annealed to zero. *)
Definition trained_then_annealed : list Metrics * State (E := env) :=
  Eval lazy -[Rplus Rminus Rmult Rdiv Rinv IZR INR] in
    match updates [0%Q; 0%Q] (snd trained) with
    | Ok out => out
    | Raise _ => ([], snd trained)
    end.



Definition built (p : TorchPolicy (E := env))
           (s : Settings.BehavioralCloningSettings)
           (default_num_epoch : Z) : TorchBCModule (E := env) :=
  match __init__ p s (3 # 10000) 8 default_num_epoch with
  | Ok m => m
  | Raise _ => demo_module
  end.

Definition no_epoch_module : TorchBCModule (E := env) :=
  Eval lazy in built demo_policy demo_settings 0.

Definition capped_module : TorchBCModule (E := env) :=
  set_samples_per_update demo_module 4.

Definition idle_settings : Settings.BehavioralCloningSettings :=
  {| Settings.demo_path := "demo.demo";
     Settings.strength := 0;
     Settings.steps := 0;
     Settings.batch_size := Some 4;
     Settings.num_epoch := None;
     Settings.samples_per_update := 0 |}.

Definition idle_module : TorchBCModule (E := env) :=
  Eval lazy in built demo_policy idle_settings 2.



Definition capped_trained : Metrics * State (E := env) :=
  Eval lazy -[Rplus Rminus Rmult Rdiv Rinv IZR INR] in run capped_module.



(** A training update followed by one at rate 0. *)
Definition trained_twice : list Metrics * State (E := env) :=
  Eval lazy -[Rplus Rminus Rmult Rdiv Rinv IZR INR] in
    match updates [3 # 20000; 0]%Q (start demo_module) with
    | Ok out => out
    | Raise _ => ([], start demo_module)
    end.

(** One sample of log-probabilities and the expert's action for it. *)
Definition one_log_probs : Tensor := [[ln (1 / 4); ln (3 / 4)]]%R.

Definition one_expert_actions : list Tensor := [[[0; 1]]]%R.

(** The numbers the loss of the discrete module is on the two samples
    and on the one. *)
Definition real_of (x : result scalar) : R :=
  match x with
  | Ok (Real r) => r
  | _ => 0%R
  end.

Definition two_sample_discrete_loss : R :=
  Eval lazy -[Rplus Rminus Rmult Rdiv Rinv IZR INR exp ln Ropp] in
    real_of (_behavioral_cloning_loss discrete_module [[0]; [1]]%R
                                      two_log_probs
                                      (ExpertBranches two_expert_actions)).

Definition one_sample_discrete_loss : R :=
  Eval lazy -[Rplus Rminus Rmult Rdiv Rinv IZR INR exp ln Ropp] in
    real_of (_behavioral_cloning_loss discrete_module [[1]]%R
                                      one_log_probs
                                      (ExpertBranches one_expert_actions)).

Definition two_sample_continuous_loss : R :=
  Eval lazy -[Rplus Rminus Rmult Rdiv Rinv IZR INR] in
    real_of (_behavioral_cloning_loss demo_module two_selected_actions []
                                      (ExpertTensor two_continuous_actions)).

(** A discrete module whose mini-batches hold a single sample, what
    its update returns, and the value it reports. *)
Definition single_sample_module : TorchBCModule (E := env) :=
  {| policy :=
       {| actor_critic := (0 : @Params env);
          sequence_length := 1;
          behavior_spec := {| discrete_action_branches := [2%nat] |};
          use_continuous_act := false;
          act_size := [2%nat];
          use_recurrent := false;
          use_vis_obs := false;
          visual_encoders := 0 |};
     current_lr := 3 # 20000;
     optimizer := (0 : @Optimizer env);
     demonstration_buffer := ([1; 2] : @AgentBuffer env);
     batch_size := 1;
     num_epoch := 1;
     n_sequences := 1;
     has_updated := false;
     self_use_recurrent := false;
     samples_per_update := 0 |}.

Definition single_sample_trained : Metrics * State (E := env) :=
  Eval lazy -[Rplus Rminus Rmult Rdiv Rinv IZR INR exp ln Ropp] in
    run single_sample_module.

Definition single_sample_value : PyValue :=
  Eval lazy -[Rplus Rminus Rmult Rdiv Rinv IZR INR exp ln Ropp] in
    match fst single_sample_trained with
    | (_, v) :: _ => v
    | [] => PyInt 1
    end.

End Demo.

(** ** Properties *)

Section Properties.

Context {E : Externals}.

Notation "x <- c ;; k" := (bind c (fun x => k))
  (at level 61, c at next level, right associativity).

Lemma bind_Ok {A B : Type} (c : M A) (k : A -> M B) s b s' :
  bind c k s = Ok (b, s') ->
  exists a s1, c s = Ok (a, s1) /\ k a s1 = Ok (b, s').
Proof.
  unfold bind. destruct (c s) as [[a s1]|e]; [|discriminate].
  intros H. exists a, s1. split; [reflexivity|exact H].
Qed.

Lemma floordiv_Ok a b q :
  floordiv a b = Ok q -> b <> 0 /\ q = a / b.
Proof.
  unfold floordiv. destruct (Z.eqb_spec b 0); [discriminate|].
  intros H. inversion H. split; [assumption|reflexivity].
Qed.

Lemma floordiv_nonzero a b : b <> 0 -> floordiv a b = Ok (a / b).
Proof.
  intros H. unfold floordiv. destruct (Z.eqb_spec b 0); [contradiction|reflexivity].
Qed.

(** Inversion of a step of a monadic computation that returned. *)
Ltac prim_inv H :=
  unfold get_self, put_self, get_random_state, put_random_state,
    record_call, ret in H;
  inversion H; subst; clear H.

(** [c] was a primitive: its result is read off. *)
Ltac bind_inv H :=
  let a := fresh "a" in
  let s := fresh "s" in
  let H1 := fresh "Hc" in
  apply bind_Ok in H; destruct H as (a & s & H1 & H);
  prim_inv H1.

(** [c] was a call: its result is named. *)
Tactic Notation "call_inv" hyp(H) "as" ident(a) ident(s) ident(Hc) :=
  apply bind_Ok in H; destruct H as (a & s & Hc & H).

(** [c] was a lifted result. *)
Tactic Notation "lift_inv" hyp(H) "as" ident(r) ident(Hr) :=
  let a := fresh "a" in
  let s := fresh "s" in
  let H1 := fresh "Hc" in
  apply bind_Ok in H; destruct H as (a & s & H1 & H);
  unfold lift in H1;
  match type of H1 with
  | match ?c with _ => _ end = _ =>
      destruct c as [r|] eqn:Hr; [|discriminate]
  end;
  inversion H1; subst; clear H1.

(** *** What one gradient step changes *)

Lemma _update_batch_Ok mb n st l st' :
  _update_batch mb n st = Ok (l, st') ->
  exists p o g,
    st' = {| this := set_networks (this st) p o;
             random_state := g;
             calls := calls st ++ [CallUpdateBatch l] |}.
Proof.
  unfold _update_batch. intros H.
  bind_inv H.
  call_inv H as targets s1 H1.
  assert (Hs1 : s1 = s).
  { destruct (use_continuous_act (policy (this s))).
    - prim_inv H1. reflexivity.
    - lift_inv H1 as masks Hmasks. prim_inv H1. reflexivity. }
  subst s1. clear H1.
  lift_inv H as indices Hindices.
  bind_inv H.
  destruct sample_actions as [[sel lp] g'].
  bind_inv H.
  lift_inv H as bc_loss Hloss.
  destruct gradient_step as [p o].
  bind_inv H. bind_inv H. prim_inv H. cbn.
  exists p, o, g'. reflexivity.
Qed.

Lemma settings_of_set_networks m p o :
  settings_of (set_networks m p o) = settings_of m.
Proof. reflexivity. Qed.

Lemma slice_calls_ext m m' il :
  settings_of m' = settings_of m -> slice_calls m' il = slice_calls m il.
Proof.
  unfold settings_of, slice_calls, slice_of. intros H.
  inversion H as [[Hlr Hbs Hne Hn Hur Hspu Hs]]. rewrite Hn, Hs. reflexivity.
Qed.

Lemma epoch_calls_ext m m' ls :
  settings_of m' = settings_of m -> epoch_calls m' ls = epoch_calls m ls.
Proof.
  intros H. unfold epoch_calls.
  assert (Hs : sequence_length (policy m') = sequence_length (policy m)).
  { unfold settings_of in H. inversion H. reflexivity. }
  rewrite Hs. f_equal. apply flat_map_ext. intros il.
  apply slice_calls_ext, H.
Qed.

Lemma make_mini_batch_eq a b st :
  make_mini_batch a b st =
  Ok (buffer_make_mini_batch (demonstration_buffer (this st)) a b,
      {| this := this st;
         random_state := random_state st;
         calls := calls st ++ [CallMakeMiniBatch a b] |}).
Proof. reflexivity. Qed.

Lemma shuffle_eq s st :
  shuffle s st =
  Ok (tt,
      {| this :=
           set_demonstration_buffer
             (this st)
             (fst (buffer_shuffle (demonstration_buffer (this st)) s
                                  (random_state st)));
         random_state :=
           snd (buffer_shuffle (demonstration_buffer (this st)) s
                               (random_state st));
         calls := calls st ++ [CallShuffle s] |}).
Proof.
  unfold shuffle, bind, get_self, get_random_state. cbn.
  destruct buffer_shuffle as [b' g']. reflexivity.
Qed.

(** *** The loop over the slices of an epoch *)

Lemma train_on_slice_Ok acc i st acc' st' :
  train_on_slice acc i st = Ok (acc', st') ->
  exists l,
    acc' = acc ++ [l]
    /\ calls st' = calls st ++ slice_calls (this st) (i, l)
    /\ settings_of (this st') = settings_of (this st)
    /\ has_updated (this st') = has_updated (this st)
    /\ demonstration_buffer (this st') = demonstration_buffer (this st).
Proof.
  unfold train_on_slice. intros H.
  bind_inv H.
  call_inv H as mb s1 Hmb.
  rewrite make_mini_batch_eq in Hmb. inversion Hmb; subst; clear Hmb.
  bind_inv H.
  call_inv H as l s1 Hstep.
  apply _update_batch_Ok in Hstep. destruct Hstep as (p & o & g & ->).
  prim_inv H. cbn. exists l. rewrite <- app_assoc.
  repeat split; reflexivity.
Qed.

Lemma slices_loop_Ok idxs : forall acc st acc' st',
  for_each idxs acc train_on_slice st = Ok (acc', st') ->
  exists ls,
    length ls = length idxs
    /\ acc' = acc ++ ls
    /\ calls st' =
       calls st ++ flat_map (slice_calls (this st)) (combine idxs ls)
    /\ settings_of (this st') = settings_of (this st)
    /\ has_updated (this st') = has_updated (this st)
    /\ demonstration_buffer (this st') = demonstration_buffer (this st).
Proof.
  induction idxs as [|i idxs IH]; intros acc st acc' st' H.
  - cbn in H. prim_inv H. exists []. rewrite !app_nil_r.
    repeat split; reflexivity.
  - cbn [for_each] in H. apply bind_Ok in H.
    destruct H as (acc1 & s1 & H1 & H).
    apply train_on_slice_Ok in H1.
    destruct H1 as (l & -> & Hcalls & Hset & Hupd & Hbuf).
    apply IH in H.
    destruct H as (ls & Hlen & -> & Hcalls' & Hset' & Hupd' & Hbuf').
    exists (l :: ls). cbn [length combine flat_map].
    rewrite Hcalls', Hcalls, Hset', Hupd', Hbuf', <- !app_assoc.
    repeat split; try assumption; try congruence.
    do 2 f_equal. apply flat_map_ext. intros il.
    apply slice_calls_ext, Hset.
Qed.

(** *** The loop over the epochs *)

Lemma range_length n : length (range n) = Z.to_nat n.
Proof. unfold range. rewrite length_map, length_seq. reflexivity. Qed.

Lemma range_to_nat n : range (Z.of_nat (Z.to_nat n)) = range n.
Proof. unfold range. rewrite Nat2Z.id. reflexivity. Qed.

Lemma train_epoch_Ok pb mb acc e st acc' st' :
  train_epoch pb mb acc e st = Ok (acc', st') ->
  sequence_length (policy (this st)) <> 0
  /\ exists ls,
      length ls =
      Z.to_nat ((if mb =? 0 then pb else Z.min pb mb)
                / sequence_length (policy (this st)))
      /\ acc' = acc ++ ls
      /\ calls st' = calls st ++ epoch_calls (this st) ls
      /\ settings_of (this st') = settings_of (this st)
      /\ has_updated (this st') = has_updated (this st)
      /\ shuffled (demonstration_buffer (this st))
                  (demonstration_buffer (this st')).
Proof.
  unfold train_epoch. intros H.
  bind_inv H.
  call_inv H as u s1 Hsh.
  rewrite shuffle_eq in Hsh. inversion Hsh; subst u s1; clear Hsh.
  bind_inv H. cbn [this policy set_demonstration_buffer] in H.
  lift_inv H as n Hn.
  apply floordiv_Ok in Hn. destruct Hn as [Hs ->].
  split; [exact Hs|].
  apply slices_loop_Ok in H.
  destruct H as (ls & Hlen & -> & Hcalls & Hset & Hupd & Hbuf).
  cbn [this calls set_demonstration_buffer] in *.
  exists ls. rewrite range_length in Hlen.
  repeat split; try assumption.
  - rewrite Hcalls, <- app_assoc. f_equal. unfold epoch_calls.
    cbn [app]. f_equal. rewrite Hlen, range_to_nat.
    apply flat_map_ext. intros il. apply slice_calls_ext. reflexivity.
  - rewrite Hbuf. apply shuffled_step, shuffled_refl.
Qed.

Lemma shuffled_trans b1 b2 b3 :
  shuffled b1 b2 -> shuffled b2 b3 -> shuffled b1 b3.
Proof.
  intros H12 H23. induction H23 as [|b s g _ IH]; [assumption|].
  apply shuffled_step, IH.
Qed.

Lemma epochs_loop_Ok pb mb es : forall acc st acc' st',
  for_each es acc (train_epoch pb mb) st = Ok (acc', st') ->
  (es <> [] -> sequence_length (policy (this st)) <> 0)
  /\ exists lss,
    length lss = length es
    /\ Forall (fun ls =>
                 length ls =
                 Z.to_nat ((if mb =? 0 then pb else Z.min pb mb)
                           / sequence_length (policy (this st))))
              lss
    /\ acc' = acc ++ concat lss
    /\ calls st' = calls st ++ flat_map (epoch_calls (this st)) lss
    /\ settings_of (this st') = settings_of (this st)
    /\ has_updated (this st') = has_updated (this st)
    /\ shuffled (demonstration_buffer (this st))
                (demonstration_buffer (this st')).
Proof.
  induction es as [|e es IH]; intros acc st acc' st' H.
  - cbn in H. prim_inv H. split; [congruence|].
    exists []. cbn. rewrite !app_nil_r.
    repeat split; try reflexivity; constructor.
  - cbn [for_each] in H. call_inv H as acc1 s1 H1.
    apply train_epoch_Ok in H1.
    destruct H1 as (Hs & ls & Hlen & -> & Hcalls & Hset & Hupd & Hbuf).
    apply IH in H.
    destruct H as (_ & lss & Hlen' & Hall & -> & Hcalls' & Hset' & Hupd' & Hbuf').
    assert (Hseq : sequence_length (policy (this s1))
                   = sequence_length (policy (this st))).
    { unfold settings_of in Hset. inversion Hset. reflexivity. }
    split; [intros _; exact Hs|].
    exists (ls :: lss). cbn [length concat flat_map].
    rewrite Hcalls', Hcalls, Hset', Hupd', <- !app_assoc.
    repeat split; try assumption; try congruence.
    + constructor; [exact Hlen|]. rewrite Hseq in Hall. exact Hall.
    + do 2 f_equal. apply flat_map_ext. intros l.
      apply epoch_calls_ext, Hset.
    + eapply shuffled_trans; eassumption.
Qed.

(** *** The whole update *)

Lemma update_skip st :
  Qle_bool (current_lr (this st)) 0 = true ->
  update st = Ok ([(loss_key, PyInt 0)], st).
Proof.
  intros H. unfold update, bind, get_self. rewrite H. reflexivity.
Qed.

Lemma update_Ok st r st' :
  Qle_bool (current_lr (this st)) 0 = false ->
  update st = Ok (r, st') ->
  n_sequences (this st) <> 0
  /\ (0 < num_epoch (this st) -> sequence_length (policy (this st)) <> 0)
  /\ exists lss,
      length lss = Z.to_nat (num_epoch (this st))
      /\ Forall (fun ls => length ls = steps_per_epoch (this st)) lss
      /\ r = [(loss_key, PyFloat (np_mean (concat lss)))]
      /\ calls st' = calls st ++ flat_map (epoch_calls (this st)) lss
      /\ settings_of (this st') = settings_of (this st)
      /\ has_updated (this st') = true
      /\ shuffled (demonstration_buffer (this st))
                  (demonstration_buffer (this st')).
Proof.
  intros Hlr H. unfold update in H.
  bind_inv H. rewrite Hlr in H.
  lift_inv H as pb Hpb. apply floordiv_Ok in Hpb. destruct Hpb as [Hn ->].
  lift_inv H as mb Hmb. apply floordiv_Ok in Hmb. destruct Hmb as [_ ->].
  call_inv H as batch_losses s1 Hloop.
  apply epochs_loop_Ok in Hloop.
  destruct Hloop as (Hs & lss & Hlen & Hall & -> & Hcalls & Hset & Hupd & Hbuf).
  bind_inv H. bind_inv H. prim_inv H.
  rewrite range_length in Hlen. cbn.
  split; [exact Hn|]. split.
  { intros Hpos. apply Hs. unfold range.
    destruct (Z.to_nat (num_epoch (this s))) eqn:Hk; [lia|discriminate]. }
  exists lss. repeat split; assumption.
Qed.

(** *** Completion *)

Lemma _update_batch_continuous mb n st :
  use_continuous_act (policy (this st)) = true ->
  sequence_length (policy (this st)) <> 0 ->
  exists l st', _update_batch mb n st = Ok (l, st').
Proof.
  intros Hc Hs.
  unfold _update_batch, bind, get_self, get_random_state,
    put_random_state, put_self, record_call, ret, lift.
  cbn. rewrite Hc. cbn.
  unfold range_step. destruct (Z.eqb_spec (sequence_length (policy (this st))) 0);
    [contradiction|].
  destruct (sequence_length (policy (this st)) <? 0);
    destruct sample_actions as [[sel lp] g'];
    unfold _behavioral_cloning_loss; rewrite Hc; cbn;
    destruct gradient_step as [p o]; eauto.
Qed.

Lemma slices_loop_continuous idxs : forall acc st,
  use_continuous_act (policy (this st)) = true ->
  sequence_length (policy (this st)) <> 0 ->
  exists acc' st', for_each idxs acc train_on_slice st = Ok (acc', st').
Proof.
  induction idxs as [|i idxs IH]; intros acc st Hc Hs.
  - cbn. unfold ret. eauto.
  - cbn [for_each]. unfold bind.
    destruct (train_on_slice acc i st) as [[acc1 s1]|e] eqn:Hstep.
    + apply train_on_slice_Ok in Hstep.
      destruct Hstep as (l & _ & _ & Hset & _).
      unfold settings_of in Hset. inversion Hset.
      apply IH; congruence.
    + exfalso. unfold train_on_slice, bind, get_self in Hstep.
      rewrite make_mini_batch_eq in Hstep.
      match type of Hstep with
      | match _update_batch ?mb ?n ?s with _ => _ end = _ =>
          destruct (_update_batch_continuous mb n s Hc Hs)
            as (l & s' & Hb); rewrite Hb in Hstep
      end.
      discriminate.
Qed.

Lemma train_epoch_continuous pb mb acc e st :
  use_continuous_act (policy (this st)) = true ->
  sequence_length (policy (this st)) <> 0 ->
  exists acc' st', train_epoch pb mb acc e st = Ok (acc', st').
Proof.
  intros Hc Hs. unfold train_epoch, bind at 1, get_self.
  unfold bind at 1. rewrite shuffle_eq.
  unfold bind at 1. cbn [this policy set_demonstration_buffer].
  unfold bind at 1, lift. rewrite (floordiv_nonzero _ _ Hs).
  apply slices_loop_continuous; assumption.
Qed.

Lemma epochs_loop_continuous pb mb es : forall acc st,
  use_continuous_act (policy (this st)) = true ->
  sequence_length (policy (this st)) <> 0 ->
  exists acc' st',
    for_each es acc (train_epoch pb mb) st = Ok (acc', st').
Proof.
  induction es as [|e es IH]; intros acc st Hc Hs.
  - cbn. unfold ret. eauto.
  - cbn [for_each]. unfold bind.
    destruct (train_epoch_continuous pb mb acc e st Hc Hs)
      as (acc1 & s1 & Hstep).
    rewrite Hstep. apply train_epoch_Ok in Hstep.
    destruct Hstep as (_ & ls & _ & _ & _ & Hset & _).
    unfold settings_of in Hset. inversion Hset.
    apply IH; congruence.
Qed.

(** With a continuous action space, [update] returns whenever its two
    divisors are not zero. *)
Lemma update_completes st :
  use_continuous_act (policy (this st)) = true ->
  sequence_length (policy (this st)) <> 0 ->
  n_sequences (this st) <> 0 ->
  exists r st', update st = Ok (r, st').
Proof.
  intros Hc Hs Hn.
  destruct (Qle_bool (current_lr (this st)) 0) eqn:Hlr.
  - rewrite (update_skip st Hlr). eauto.
  - unfold update, bind at 1, get_self. rewrite Hlr.
    unfold bind at 1, lift. rewrite (floordiv_nonzero _ _ Hn).
    unfold bind at 1, lift. rewrite (floordiv_nonzero _ _ Hn).
    unfold bind at 1.
    match goal with
    | |- context [for_each ?es ?acc (train_epoch ?pb ?mb) st] =>
        destruct (epochs_loop_continuous pb mb es acc st Hc Hs)
          as (acc' & s1 & Hloop); rewrite Hloop
    end.
    unfold bind, put_self, ret. eauto.
Qed.

(** *** Reading the calls *)

Lemma slices_app cs1 cs2 : slices (cs1 ++ cs2) = slices cs1 ++ slices cs2.
Proof.
  induction cs1 as [|[s|a b|l] cs1 IH]; cbn; rewrite ?IH; reflexivity.
Qed.

Lemma losses_app cs1 cs2 : losses (cs1 ++ cs2) = losses cs1 ++ losses cs2.
Proof.
  induction cs1 as [|[s|a b|l] cs1 IH]; cbn; rewrite ?IH; reflexivity.
Qed.

Lemma shuffles_app cs1 cs2 :
  shuffles (cs1 ++ cs2) = (shuffles cs1 + shuffles cs2)%nat.
Proof.
  induction cs1 as [|[s|a b|l] cs1 IH]; cbn; rewrite ?IH; reflexivity.
Qed.

Lemma slices_slice_calls m ils :
  slices (flat_map (slice_calls m) ils)
  = map (fun il => slice_of m (fst il)) ils.
Proof.
  induction ils as [|il ils IH]; [reflexivity|].
  cbn. rewrite IH. reflexivity.
Qed.

Lemma losses_slice_calls m ils :
  losses (flat_map (slice_calls m) ils) = map snd ils.
Proof.
  induction ils as [|il ils IH]; [reflexivity|].
  cbn. rewrite IH. reflexivity.
Qed.

Lemma shuffles_slice_calls m ils :
  shuffles (flat_map (slice_calls m) ils) = O.
Proof.
  induction ils as [|il ils IH]; [reflexivity|]. cbn. exact IH.
Qed.

Lemma map_fst_combine {A B : Type} (xs : list A) : forall ys : list B,
  length xs = length ys -> map fst (combine xs ys) = xs.
Proof.
  induction xs as [|x xs IH]; intros [|y ys] H; try discriminate;
    [reflexivity|].
  cbn. rewrite IH; [reflexivity|]. cbn in H. lia.
Qed.

Lemma map_snd_combine {A B : Type} (xs : list A) : forall ys : list B,
  length xs = length ys -> map snd (combine xs ys) = ys.
Proof.
  induction xs as [|x xs IH]; intros [|y ys] H; try discriminate;
    [reflexivity|].
  cbn. rewrite IH; [reflexivity|]. cbn in H. lia.
Qed.

Lemma range_of_length {A : Type} (ls : list A) :
  length (range (Z.of_nat (length ls))) = length ls.
Proof. rewrite range_length. apply Nat2Z.id. Qed.

Lemma slices_epoch_calls m ls :
  slices (epoch_calls m ls)
  = map (slice_of m) (range (Z.of_nat (length ls))).
Proof.
  unfold epoch_calls. cbn [slices]. rewrite slices_slice_calls.
  rewrite <- (map_map fst (slice_of m)).
  rewrite map_fst_combine; [reflexivity|apply range_of_length].
Qed.

Lemma losses_epoch_calls m ls : losses (epoch_calls m ls) = ls.
Proof.
  unfold epoch_calls. cbn [losses]. rewrite losses_slice_calls.
  apply map_snd_combine, range_of_length.
Qed.

Lemma shuffles_epoch_calls m ls : shuffles (epoch_calls m ls) = 1%nat.
Proof.
  unfold epoch_calls. cbn [shuffles]. rewrite shuffles_slice_calls.
  reflexivity.
Qed.

Lemma losses_epochs m lss :
  losses (flat_map (epoch_calls m) lss) = concat lss.
Proof.
  induction lss as [|ls lss IH]; [reflexivity|].
  cbn [flat_map concat]. rewrite losses_app, losses_epoch_calls, IH.
  reflexivity.
Qed.

Lemma shuffles_epochs m lss :
  shuffles (flat_map (epoch_calls m) lss) = length lss.
Proof.
  induction lss as [|ls lss IH]; [reflexivity|].
  cbn [flat_map length]. rewrite shuffles_app, shuffles_epoch_calls, IH.
  reflexivity.
Qed.

Lemma length_concat_uniform {A : Type} (k : nat) (lss : list (list A)) :
  Forall (fun ls => length ls = k) lss ->
  length (concat lss) = (length lss * k)%nat.
Proof.
  induction 1 as [|ls lss Hls _ IH]; [reflexivity|].
  cbn [concat length]. rewrite length_app, IH, Hls. reflexivity.
Qed.

(** Every epoch asks for the same slices. *)
Lemma slices_epochs m k lss :
  Forall (fun ls : list scalar => length ls = k) lss ->
  slices (flat_map (epoch_calls m) lss)
  = concat (repeat (map (slice_of m) (range (Z.of_nat k))) (length lss)).
Proof.
  induction 1 as [|ls lss Hls _ IH]; [reflexivity|].
  cbn [flat_map length repeat concat].
  rewrite slices_app, slices_epoch_calls, IH, Hls. reflexivity.
Qed.

Lemma in_slices_epochs m k lss a b :
  Forall (fun ls : list scalar => length ls = k) lss ->
  In (a, b) (slices (flat_map (epoch_calls m) lss)) ->
  exists i, 0 <= i < Z.of_nat k /\ (a, b) = slice_of m i.
Proof.
  intros Hall Hin. rewrite (slices_epochs m k lss Hall) in Hin.
  apply in_concat in Hin. destruct Hin as (l & Hl & Hin).
  apply repeat_spec in Hl. subst l.
  apply in_map_iff in Hin. destruct Hin as (i & Hi & Hin).
  unfold range in Hin. apply in_map_iff in Hin.
  destruct Hin as (j & <- & Hj). apply in_seq in Hj.
  exists (Z.of_nat j). split; [lia|congruence].
Qed.

Lemma positive_rate lr : (0 < lr)%Q -> Qle_bool lr 0 = false.
Proof.
  intros H. destruct (Qle_bool lr 0) eqn:Hle; [|reflexivity].
  apply Qle_bool_iff in Hle. exfalso. exact (Qlt_not_le _ _ H Hle).
Qed.

Lemma zero_rate lr : (lr <= 0)%Q -> Qle_bool lr 0 = true.
Proof. intros H. apply Qle_bool_iff, H. Qed.

(** *** What every update keeps *)

Lemma update_frame st r st' :
  update st = Ok (r, st') ->
  settings_of (this st') = settings_of (this st)
  /\ (has_updated (this st) = true -> has_updated (this st') = true).
Proof.
  intros H. destruct (Qle_bool (current_lr (this st)) 0) eqn:Hlr.
  - rewrite (update_skip st Hlr) in H. inversion H; subst.
    split; [reflexivity|trivial].
  - apply (update_Ok st r st' Hlr) in H.
    destruct H as (_ & _ & lss & _ & _ & _ & _ & Hset & Hupd & _).
    split; [exact Hset|intros _; exact Hupd].
Qed.

Lemma settings_n_sequences m m' :
  settings_of m' = settings_of m -> n_sequences m' = n_sequences m.
Proof. unfold settings_of. intros H. inversion H. reflexivity. Qed.

Lemma settings_sequence_length m m' :
  settings_of m' = settings_of m ->
  sequence_length (policy m') = sequence_length (policy m).
Proof. unfold settings_of. intros H. inversion H. reflexivity. Qed.

Lemma updates_frame lrs : forall st rs st',
  updates lrs st = Ok (rs, st') ->
  n_sequences (this st') = n_sequences (this st)
  /\ sequence_length (policy (this st'))
     = sequence_length (policy (this st))
  /\ (has_updated (this st) = true -> has_updated (this st') = true).
Proof.
  induction lrs as [|lr lrs IH]; intros st rs st' H.
  - cbn in H. prim_inv H. repeat split; trivial.
  - cbn [updates] in H.
    bind_inv H. bind_inv H.
    call_inv H as stats s1 Hupd.
    call_inv H as rest s2 Hrest.
    prim_inv H.
    apply update_frame in Hupd. destruct Hupd as [Hset Hlatch].
    apply IH in Hrest. destruct Hrest as (Hn & Hs & Hlatch').
    rewrite Hn, Hs.
    rewrite (settings_n_sequences _ _ Hset).
    rewrite (settings_sequence_length _ _ Hset).
    repeat split. intros Hu. apply Hlatch', Hlatch. exact Hu.
Qed.

(** *** The early exit *)

(** C1.  In a state with [current_lr <= 0], [update] returns the
    mapping with the single entry "Losses/Pretraining Loss" -> 0 and
    the state it was called in: the parameters of the policy, the
    state of the optimiser, the demonstration buffer, the random
    generators and [has_updated] are what they were, and no call
    (shuffle, slice or gradient step) was made. *)
Theorem update_without_rate (st : State) :
  (current_lr (this st) <= 0)%Q ->
  update st = Ok ([("Losses/Pretraining Loss"%string, PyInt 0)], st).
Proof. intros H. apply update_skip, zero_rate, H. Qed.

(** *** The constructor *)

(** C5.  For a sequence length other than zero (in particular a
    positive one) the constructor returns a module whose
    [n_sequences] is [max (min batch_size num_experiences //
    sequence_length) 1], hence at least 1 however small the batch
    size or the buffer are, and no run of updates, with the learning
    rate set from outside in between, changes it. *)
Theorem n_sequences_at_least_one
        (policy0 : TorchPolicy) (settings : Settings.BehavioralCloningSettings)
        (policy_learning_rate : Q)
        (default_batch_size default_num_epoch : Z) :
  sequence_length policy0 <> 0 ->
  exists m,
    __init__ policy0 settings policy_learning_rate
             default_batch_size default_num_epoch = Ok m
    /\ n_sequences m =
       Z.max (Z.min (batch_size m)
                    (num_experiences (demonstration_buffer m))
              / sequence_length policy0) 1
    /\ 1 <= n_sequences m
    /\ forall lrs st rs st',
        this st = m ->
        updates lrs st = Ok (rs, st') ->
        n_sequences (this st') = n_sequences m.
Proof.
  intros Hs. unfold __init__.
  rewrite (floordiv_nonzero _ _ Hs).
  eexists. split; [reflexivity|]. cbn.
  split; [reflexivity|]. split; [lia|].
  intros lrs st rs st' Hst H.
  apply updates_frame in H. destruct H as (Hn & _ & _).
  rewrite Hn, Hst. reflexivity.
Qed.

(** *** The flag *)

(** C8.  The module the constructor returns has [has_updated] false;
    every update that returns with a positive learning rate leaves it
    true; and once it is true it is true after any further run of
    updates, whatever the learning rates set in between. *)
Theorem has_updated_latches
        (policy0 : TorchPolicy) (settings : Settings.BehavioralCloningSettings)
        (policy_learning_rate : Q)
        (default_batch_size default_num_epoch : Z) (m : TorchBCModule) :
  __init__ policy0 settings policy_learning_rate
           default_batch_size default_num_epoch = Ok m ->
  has_updated m = false
  /\ (forall st r st',
        (0 < current_lr (this st))%Q ->
        update st = Ok (r, st') ->
        has_updated (this st') = true)
  /\ (forall lrs st rs st',
        has_updated (this st) = true ->
        updates lrs st = Ok (rs, st') ->
        has_updated (this st') = true).
Proof.
  intros Hinit. split; [|split].
  - unfold __init__ in Hinit. destruct floordiv; [|discriminate].
    inversion Hinit. reflexivity.
  - intros st r st' Hlr H.
    apply (update_Ok st r st' (positive_rate _ Hlr)) in H.
    destruct H as (_ & _ & lss & _ & _ & _ & _ & _ & Hupd & _).
    exact Hupd.
  - intros lrs st rs st' Hu H.
    apply updates_frame in H. destruct H as (_ & _ & Hlatch).
    apply Hlatch, Hu.
Qed.

(** *** The epochs *)

(** C3, amended.  With a positive learning rate, an update asks in
    each of its [num_epoch] epochs for the slices [0 ..
    num_batches // sequence_length), where [max_batches =
    samples_per_update // n_sequences] and [num_batches] is
    [possible_batches] when [max_batches = 0] and [min
    possible_batches max_batches] otherwise.  Consequently, for
    every [samples_per_update] from 0 up to, and not including,
    [n_sequences], [max_batches] is 0, [num_batches] is
    [possible_batches], and the update asks for exactly the slices
    the update without a cap asks for. *)
Theorem batches_of_an_epoch (st : State) r st' :
  (0 < current_lr (this st))%Q ->
  update st = Ok (r, st') ->
  (exists new,
      calls st' = calls st ++ new
      /\ slices new =
         concat (repeat (map (slice_of (this st))
                             (range (num_batches (this st)
                                     / sequence_length (policy (this st)))))
                        (Z.to_nat (num_epoch (this st))))
      /\ length (losses new) =
         (Z.to_nat (num_epoch (this st)) * steps_per_epoch (this st))%nat)
  /\ (0 <= samples_per_update (this st) < n_sequences (this st) ->
      max_batches (this st) = 0
      /\ num_batches (this st) = possible_batches (this st)
      /\ forall r0 st0',
          update (unbounded st) = Ok (r0, st0') ->
          slices (skipn (length (calls st)) (calls st'))
          = slices (skipn (length (calls st)) (calls st0'))).
Proof.
  intros Hlr H.
  assert (Hshape : forall s1 r1 s1',
    Qle_bool (current_lr (this s1)) 0 = false ->
    update s1 = Ok (r1, s1') ->
    exists new,
      calls s1' = calls s1 ++ new
      /\ slices new =
         concat (repeat (map (slice_of (this s1))
                             (range (num_batches (this s1)
                                     / sequence_length (policy (this s1)))))
                        (Z.to_nat (num_epoch (this s1))))
      /\ length (losses new) =
         (Z.to_nat (num_epoch (this s1)) * steps_per_epoch (this s1))%nat).
  { intros s1 r1 s1' Hlr1 H1.
    apply (update_Ok s1 r1 s1' Hlr1) in H1.
    destruct H1 as (_ & _ & lss & Hlen & Hall & _ & Hcalls & _).
    exists (flat_map (epoch_calls (this s1)) lss).
    split; [exact Hcalls|]. split.
    - rewrite (slices_epochs _ _ _ Hall), Hlen.
      unfold steps_per_epoch. rewrite range_to_nat. reflexivity.
    - rewrite losses_epochs, <- Hlen. apply length_concat_uniform, Hall. }
  split; [apply (Hshape st r st' (positive_rate _ Hlr) H)|].
  intros Hspu.
  assert (Hmax : max_batches (this st) = 0).
  { unfold max_batches. apply Z.div_small, Hspu. }
  assert (Hnb : num_batches (this st) = possible_batches (this st)).
  { unfold num_batches. rewrite Hmax. reflexivity. }
  split; [exact Hmax|]. split; [exact Hnb|].
  intros r0 st0' H0.
  destruct (Hshape st r st' (positive_rate _ Hlr) H) as (new & -> & Hnew & _).
  destruct (Hshape (unbounded st) r0 st0' (positive_rate _ Hlr) H0)
    as (new0 & -> & Hnew0 & _).
  cbn [unbounded calls] in *.
  rewrite !skipn_app, !skipn_all, Nat.sub_diag. cbn [skipn app].
  rewrite Hnew, Hnew0, Hnb. reflexivity.
Qed.


(** *** The reported loss *)

Lemma reals_of_Real rs : reals_of (map Real rs) = Some rs.
Proof.
  induction rs as [|x rs IH]; [reflexivity|]. cbn. rewrite IH. reflexivity.
Qed.

Lemma np_mean_Real rs :
  rs <> [] -> np_mean (map Real rs) = Real (Rsum rs / INR (length rs)).
Proof.
  intros H. unfold np_mean. rewrite reals_of_Real.
  destruct rs; [contradiction|reflexivity].
Qed.

Lemma skipn_calls {A : Type} (old new : list A) :
  skipn (length old) (old ++ new) = new.
Proof.
  rewrite skipn_app, skipn_all, Nat.sub_diag. reflexivity.
Qed.

Lemma reals_of_Some xs : forall rs, reals_of xs = Some rs -> xs = map Real rs.
Proof.
  induction xs as [|[x|] xs IH]; intros rs H; cbn in H.
  - inversion H. reflexivity.
  - destruct (reals_of xs) as [rs'|]; [|discriminate].
    inversion H. cbn. rewrite (IH rs' eq_refl). reflexivity.
  - discriminate.
Qed.

Lemma np_mean_zero xs :
  is_zero (PyFloat (np_mean xs))
  <-> exists rs, xs = map Real rs /\ rs <> [] /\ Rsum rs = 0%R.
Proof.
  split.
  - unfold np_mean. destruct (reals_of xs) as [rs|] eqn:Hrs; [|intros []].
    apply reals_of_Some in Hrs. destruct rs as [|x rs]; [intros []|].
    cbn [mean_of is_zero]. intros Hmean. exists (x :: rs).
    split; [exact Hrs|]. split; [discriminate|].
    assert (Hlen : (0 < INR (length (x :: rs)))%R)
      by (apply lt_0_INR; cbn; lia).
    pose proof (Rinv_0_lt_compat _ Hlen) as Hinv.
    apply Rmult_integral in Hmean. destruct Hmean as [Hsum|Hzero];
      [exact Hsum|lra].
  - intros (rs & -> & Hne & Hsum). rewrite (np_mean_Real rs Hne).
    cbn [is_zero]. rewrite Hsum. unfold Rdiv. apply Rmult_0_l.
Qed.

(** C6, amended.  An update that returns, returns a mapping with the
    single key "Losses/Pretraining Loss".  With a learning rate that
    is not positive its value is the integer 0 and the state is what
    it was: no gradient step is taken.  With a positive learning rate
    the calls of the update are those of its [num_epoch] epochs, each
    a shuffle followed, for each of its [num_batches //
    sequence_length] slices in turn, by the request for the slice and
    the gradient step on it with the loss that step reports; the value
    is [np.mean] of these losses, one for each slice, in their order:
    their sum divided by their number when they are real numbers.  So
    the value is 0 when the learning rate is not positive, and
    otherwise only when losses were recorded and they sum to 0. *)
Theorem metrics_of_an_update (st : State) r st' :
  update st = Ok (r, st') ->
  exists v,
    r = [("Losses/Pretraining Loss"%string, v)]
    /\ ((current_lr (this st) <= 0)%Q -> v = PyInt 0 /\ st' = st)
    /\ ((0 < current_lr (this st))%Q ->
        exists lss,
          length lss = Z.to_nat (num_epoch (this st))
          /\ Forall (fun ls =>
                       length ls =
                       Z.to_nat (num_batches (this st)
                                 / sequence_length (policy (this st)))) lss
          /\ calls st' = calls st ++ flat_map (epoch_calls (this st)) lss
          /\ losses (skipn (length (calls st)) (calls st')) = concat lss
          /\ v = PyFloat (np_mean (concat lss))
          /\ forall rs,
              concat lss = map Real rs -> rs <> [] ->
              v = PyFloat (Real (Rsum rs / INR (length rs))))
    /\ (is_zero v <->
        (current_lr (this st) <= 0)%Q
        \/ exists rs,
            losses (skipn (length (calls st)) (calls st')) = map Real rs
            /\ rs <> [] /\ Rsum rs = 0%R).
Proof.
  intros H. destruct (Qle_bool (current_lr (this st)) 0) eqn:Hlr.
  - rewrite (update_skip st Hlr) in H. inversion H; subst.
    apply Qle_bool_iff in Hlr. exists (PyInt 0).
    split; [reflexivity|]. split; [intros _; split; reflexivity|].
    split.
    { intros Hpos. exfalso. exact (Qlt_not_le _ _ Hpos Hlr). }
    split; [intros _; left; exact Hlr|intros _; reflexivity].
  - apply (update_Ok st r st' Hlr) in H.
    destruct H as (_ & _ & lss & Hlen & Hall & -> & Hcalls & _).
    assert (Hnot : ~ (current_lr (this st) <= 0)%Q).
    { intros Hle. apply zero_rate in Hle. congruence. }
    assert (Hlosses : losses (skipn (length (calls st)) (calls st'))
                      = concat lss).
    { rewrite Hcalls, skipn_calls. apply losses_epochs. }
    exists (PyFloat (np_mean (concat lss))).
    split; [reflexivity|]. split; [intros Hle; contradiction|].
    split.
    { intros _. exists lss.
      split; [exact Hlen|]. split; [exact Hall|]. split; [exact Hcalls|].
      split; [exact Hlosses|]. split; [reflexivity|].
      intros rs -> Hrs. rewrite (np_mean_Real rs Hrs). reflexivity. }
    rewrite Hlosses, np_mean_zero. split.
    + intros Hzero. right. exact Hzero.
    + intros [Hle|Hzero]; [contradiction|exact Hzero].
Qed.

(** C9.  With a positive learning rate and fewer batches than the
    sequence length, an update that returns took no gradient step
    and asked for no slice; the value it reports is the mean of no
    loss at all, [NaN] and not 0, and [has_updated] is true after
    it.  (For [0 <= num_batches] the quotient [num_batches //
    sequence_length] is then 0.) *)
Theorem update_without_batches (st : State) r st' :
  (0 < current_lr (this st))%Q ->
  0 < sequence_length (policy (this st)) ->
  num_batches (this st) < sequence_length (policy (this st)) ->
  update st = Ok (r, st') ->
  r = [("Losses/Pretraining Loss"%string, PyFloat NaN)]
  /\ has_updated (this st') = true
  /\ losses (skipn (length (calls st)) (calls st')) = []
  /\ slices (skipn (length (calls st)) (calls st')) = []
  /\ (0 <= num_batches (this st) ->
      num_batches (this st) / sequence_length (policy (this st)) = 0).
Proof.
  intros Hlr Hs Hnb H.
  apply (update_Ok st r st' (positive_rate _ Hlr)) in H.
  destruct H as (_ & _ & lss & Hlen & Hall & -> & Hcalls & _ & Hupd & _).
  assert (Hzero : steps_per_epoch (this st) = O).
  { unfold steps_per_epoch.
    assert (num_batches (this st) / sequence_length (policy (this st)) < 1)
      by (apply Z.div_lt_upper_bound; lia).
    lia. }
  assert (Hnil : concat lss = []).
  { apply concat_nil_Forall. eapply Forall_impl; [|exact Hall].
    intros ls Hls. cbv beta in Hls. rewrite Hzero in Hls.
    destruct ls; [reflexivity|discriminate]. }
  rewrite Hcalls, skipn_calls, losses_epochs, (slices_epochs _ _ _ Hall).
  rewrite Hnil, Hzero. cbn [Z.of_nat range Z.to_nat seq map].
  repeat split; try assumption.
  - clear. induction (length lss) as [|k IH]; [reflexivity|exact IH].
  - intros H0. apply Z.div_small. lia.
Qed.

(** *** The slices *)

Lemma num_batches_le m : num_batches m <= possible_batches m.
Proof.
  unfold num_batches. destruct (max_batches m =? 0); [lia|].
  apply Z.le_min_l.
Qed.

(** C10.  With a positive learning rate, [n_sequences >= 1] and a
    positive sequence length, [num_batches <= possible_batches] and
    every slice an update asks of the buffer lies within it: it
    starts at 0 or later, is not empty, and ends no later than
    [(num_batches // sequence_length) * n_sequences *
    sequence_length], which is no more than the number of
    experiences the buffer had when the update began; and that number
    is the number it still has, when shuffling keeps it. *)
Theorem slices_within_buffer (st : State) r st' :
  (0 < current_lr (this st))%Q ->
  1 <= n_sequences (this st) ->
  0 < sequence_length (policy (this st)) ->
  update st = Ok (r, st') ->
  num_batches (this st) <= possible_batches (this st)
  /\ (forall a b,
        In (a, b) (slices (skipn (length (calls st)) (calls st'))) ->
        0 <= a < b
        /\ b <= num_batches (this st) / sequence_length (policy (this st))
                * n_sequences (this st) * sequence_length (policy (this st))
        /\ b <= num_experiences (demonstration_buffer (this st)))
  /\ ((forall b s g,
          num_experiences (fst (buffer_shuffle b s g)) = num_experiences b) ->
      num_experiences (demonstration_buffer (this st'))
      = num_experiences (demonstration_buffer (this st))).
Proof.
  intros Hlr Hn Hs H.
  apply (update_Ok st r st' (positive_rate _ Hlr)) in H.
  destruct H as (_ & _ & lss & Hlen & Hall & _ & Hcalls & _ & _ & Hbuf).
  split; [apply num_batches_le|]. split.
  - intros a b Hin. rewrite Hcalls, skipn_calls in Hin.
    apply (in_slices_epochs _ _ _ _ _ Hall) in Hin.
    destruct Hin as (i & Hi & Hab). unfold slice_of in Hab.
    inversion Hab; subst a b; clear Hab.
    pose proof (num_batches_le (this st)) as Hle.
    unfold possible_batches in Hle.
    unfold steps_per_epoch in Hi.
    set (n := n_sequences (this st)) in *.
    set (s := sequence_length (policy (this st))) in *.
    set (nb := num_batches (this st)) in *.
    set (ne := num_experiences (demonstration_buffer (this st))) in *.
    assert (Hq : i + 1 <= nb / s) by lia.
    assert (Hqs : s * (nb / s) <= nb) by (apply Z.mul_div_le; lia).
    assert (Hpn : n * (ne / n) <= ne) by (apply Z.mul_div_le; lia).
    assert (Hns : 0 < n * s) by nia.
    split; [nia|]. split; [nia|].
    apply Z.le_trans with (nb / s * n * s); [nia|].
    apply Z.le_trans with (n * nb); [nia|].
    apply Z.le_trans with (n * (ne / n)); [nia|exact Hpn].
  - intros Hkeep. clear - Hbuf Hkeep.
    induction Hbuf as [|b1 s g _ IH]; [reflexivity|].
    rewrite Hkeep. exact IH.
Qed.

(** *** The loss of a continuous action space *)

Lemma zip_with_app {A B C : Type} (f : A -> B -> C) xs : forall ys xs' ys',
  length xs = length ys ->
  zip_with f (xs ++ xs') (ys ++ ys') = zip_with f xs ys ++ zip_with f xs' ys'.
Proof.
  induction xs as [|x xs IH]; intros [|y ys] xs' ys' H; try discriminate;
    [reflexivity|].
  cbn. rewrite IH; [reflexivity|]. cbn in H. lia.
Qed.

Lemma square_sub_row (r s : list R) :
  map (fun x => x * x)%R (zip_with Rminus r s)
  = zip_with (fun x y => Rsqr (x - y)) r s.
Proof.
  revert s. induction r as [|x r IH]; intros [|y s]; try reflexivity.
  cbn. rewrite IH. reflexivity.
Qed.

Lemma concat_square_sub (a : Tensor) : forall b : Tensor,
  same_shape a b = true ->
  concat (torch.square (torch.sub a b))
  = zip_with (fun x y => Rsqr (x - y)) (concat a) (concat b).
Proof.
  induction a as [|r a IH]; intros [|s b] H; try discriminate;
    [reflexivity|].
  cbn in H. apply andb_true_iff in H. destruct H as [Hrow H].
  apply Nat.eqb_eq in Hrow.
  cbn [concat]. rewrite (zip_with_app _ r s (concat a) (concat b) Hrow).
  rewrite <- (IH b H), <- square_sub_row. reflexivity.
Qed.

(** C7.  For a policy with a continuous action space the loss is the
    mean squared error of the sampled actions against the expert
    actions of the same shape: the squared differences entry by
    entry, averaged over all entries, whatever the log-probabilities
    are. *)
Theorem continuous_loss_is_mean_squared_error
        (self : TorchBCModule) (selected_actions log_probs expert : Tensor) :
  use_continuous_act (policy self) = true ->
  same_shape selected_actions expert = true ->
  _behavioral_cloning_loss self selected_actions log_probs
                           (ExpertTensor expert)
  = Ok (mean_squared_error selected_actions expert).
Proof.
  intros Hc Hshape. unfold _behavioral_cloning_loss. rewrite Hc.
  unfold torch.mse_loss, torch.mean, mean_squared_error.
  rewrite (concat_square_sub _ _ Hshape). reflexivity.
Qed.

(** ** Further properties of the module *)

(** *** Errors of the update *)


(** With a positive learning rate, [n_sequences] other than 0 and no
    epoch to run ([num_epoch <= 0]), [update] makes no call at all, not
    even a shuffle: it sets [has_updated], changes nothing else, and
    reports the mean of no loss, [NaN]. *)
Theorem update_without_epochs (st : State) :
  (0 < current_lr (this st))%Q ->
  n_sequences (this st) <> 0 ->
  num_epoch (this st) <= 0 ->
  update st
  = Ok ([("Losses/Pretraining Loss"%string, PyFloat NaN)],
        {| this := set_has_updated (this st) true;
           random_state := random_state st;
           calls := calls st |}).
Proof.
  intros Hlr Hn Hepoch.
  unfold update, bind at 1, get_self. rewrite (positive_rate _ Hlr).
  unfold bind at 1, lift. rewrite (floordiv_nonzero _ _ Hn).
  unfold bind at 1, lift. rewrite (floordiv_nonzero _ _ Hn).
  unfold range. replace (Z.to_nat (num_epoch (this st))) with O by lia.
  reflexivity.
Qed.

(** *** What the methods leave alone *)

(** An update that returns has not assigned any of the settings of the
    module: the learning rate (it is not annealed here), the batch
    size, the number of epochs, [n_sequences], the cap on the samples,
    and the sequence length, action space and other descriptive fields
    of the policy are what they were. *)
Theorem update_keeps_settings (st : State) r st' :
  update st = Ok (r, st') ->
  current_lr (this st') = current_lr (this st)
  /\ batch_size (this st') = batch_size (this st)
  /\ num_epoch (this st') = num_epoch (this st)
  /\ n_sequences (this st') = n_sequences (this st)
  /\ samples_per_update (this st') = samples_per_update (this st)
  /\ self_use_recurrent (this st') = self_use_recurrent (this st)
  /\ sequence_length (policy (this st')) = sequence_length (policy (this st))
  /\ behavior_spec (policy (this st')) = behavior_spec (policy (this st))
  /\ use_continuous_act (policy (this st'))
     = use_continuous_act (policy (this st))
  /\ act_size (policy (this st')) = act_size (policy (this st))
  /\ use_recurrent (policy (this st')) = use_recurrent (policy (this st))
  /\ use_vis_obs (policy (this st')) = use_vis_obs (policy (this st))
  /\ visual_encoders (policy (this st'))
     = visual_encoders (policy (this st)).
Proof.
  intros H. apply update_frame in H. destruct H as [Hset _].
  unfold settings_of in Hset. inversion Hset. repeat split; assumption.
Qed.



(** *** The constructor *)

Lemma __init___Ok policy0 settings lr dbs dne m :
  __init__ policy0 settings lr dbs dne = Ok m ->
  sequence_length policy0 <> 0
  /\ m = {| policy := policy0;
            current_lr := (lr * Settings.strength settings)%Q;
            optimizer :=
              Adam (actor_critic policy0)
                   (lr * Settings.strength settings)%Q;
            demonstration_buffer :=
              demo_to_buffer (Settings.demo_path settings)
                             (sequence_length policy0)
                             (behavior_spec policy0);
            batch_size := or_default (Settings.batch_size settings) dbs;
            num_epoch := or_default (Settings.num_epoch settings) dne;
            n_sequences :=
              Z.max
                (Z.min (or_default (Settings.batch_size settings) dbs)
                       (num_experiences
                          (demo_to_buffer (Settings.demo_path settings)
                                          (sequence_length policy0)
                                          (behavior_spec policy0)))
                 / sequence_length policy0) 1;
            has_updated := false;
            self_use_recurrent := use_recurrent policy0;
            samples_per_update := Settings.samples_per_update settings |}.
Proof.
  unfold __init__. intros H.
  destruct floordiv as [q|] eqn:Hq; [|discriminate].
  apply floordiv_Ok in Hq. destruct Hq as [Hs ->].
  inversion H. split; [exact Hs|reflexivity].
Qed.

(** With a positive sequence length, a mini-batch of the module, which
    holds [n_sequences * sequence_length] experiences, is the largest
    whole number of sequences that fits both the batch size and the
    buffer, when one sequence fits; when not even one sequence fits,
    [n_sequences] is 1 and the mini-batch is one sequence, longer than
    the batch size or than the buffer. *)
Theorem mini_batch_size
        (policy0 : TorchPolicy) (settings : Settings.BehavioralCloningSettings)
        (policy_learning_rate : Q)
        (default_batch_size default_num_epoch : Z) (m : TorchBCModule) :
  0 < sequence_length policy0 ->
  __init__ policy0 settings policy_learning_rate
           default_batch_size default_num_epoch = Ok m ->
  let fit := Z.min (batch_size m) (num_experiences (demonstration_buffer m)) in
  (sequence_length policy0 <= fit ->
   n_sequences m * sequence_length policy0 <= fit
   /\ fit < (n_sequences m + 1) * sequence_length policy0)
  /\ (fit < sequence_length policy0 ->
      n_sequences m = 1
      /\ fit < n_sequences m * sequence_length policy0).
Proof.
  intros Hs H. apply __init___Ok in H. destruct H as [_ ->]. cbn.
  set (fit := Z.min _ _). set (s := sequence_length policy0) in *.
  pose proof (Z.mul_div_le fit s Hs) as Hle.
  pose proof (Z.mul_succ_div_gt fit s Hs) as Hgt.
  split.
  - intros Hfit.
    assert (1 <= fit / s) by (apply Z.div_le_lower_bound; lia).
    rewrite Z.max_l by lia. split; nia.
  - intros Hfit.
    assert (fit / s < 1) by (apply Z.div_lt_upper_bound; lia).
    rewrite Z.max_r by lia. lia.
Qed.

(** *** The constructor, then updates *)

Lemma updates_complete lrs : forall st,
  use_continuous_act (policy (this st)) = true ->
  sequence_length (policy (this st)) <> 0 ->
  n_sequences (this st) <> 0 ->
  exists rs st', updates lrs st = Ok (rs, st') /\ length rs = length lrs.
Proof.
  induction lrs as [|lr lrs IH]; intros st Hc Hs Hn.
  - exists [], st. split; reflexivity.
  - cbn [updates]. unfold bind at 1, get_self.
    unfold bind at 1, put_self. unfold bind at 1.
    match goal with
    | |- context [update ?s] =>
        destruct (update_completes s Hc Hs Hn) as (r & s1 & Hupd);
        rewrite Hupd; pose proof (update_frame _ _ _ Hupd) as [Hset _]
    end.
    cbn [this] in Hset. unfold settings_of in Hset. inversion Hset.
    destruct (IH s1) as (rs & st' & Hrest & Hlen); try congruence.
    unfold bind at 1. rewrite Hrest. unfold ret.
    exists (r :: rs), st'. split; [reflexivity|]. cbn. rewrite Hlen.
    reflexivity.
Qed.

(** A module the constructor has built for a policy with a continuous
    action space never raises from [update]: any run of updates, with
    any learning rates set in between, returns one mapping per
    update.  (The two divisors of [update] are the sequence length,
    which the constructor has divided by, and [n_sequences], which it
    has made at least 1.) *)
Theorem constructed_module_updates
        (policy0 : TorchPolicy) (settings : Settings.BehavioralCloningSettings)
        (policy_learning_rate : Q)
        (default_batch_size default_num_epoch : Z) (m : TorchBCModule) :
  use_continuous_act policy0 = true ->
  __init__ policy0 settings policy_learning_rate
           default_batch_size default_num_epoch = Ok m ->
  forall lrs st,
    this st = m ->
    exists rs st', updates lrs st = Ok (rs, st') /\ length rs = length lrs.
Proof.
  intros Hc H lrs st Hst. apply __init___Ok in H. destruct H as [Hs Hm].
  apply updates_complete; rewrite Hst, Hm; cbn; [exact Hc|exact Hs|lia].
Qed.

(** A module built with a product of policy learning rate and strength
    that is not positive (a strength of 0, say) does not train: its
    update returns the loss 0 and leaves the state, [has_updated]
    false included, as it was. *)
Theorem constructed_without_rate
        (policy0 : TorchPolicy) (settings : Settings.BehavioralCloningSettings)
        (policy_learning_rate : Q)
        (default_batch_size default_num_epoch : Z) (m : TorchBCModule) :
  (policy_learning_rate * Settings.strength settings <= 0)%Q ->
  __init__ policy0 settings policy_learning_rate
           default_batch_size default_num_epoch = Ok m ->
  forall st,
    this st = m ->
    update st = Ok ([("Losses/Pretraining Loss"%string, PyInt 0)], st)
    /\ has_updated (this st) = false.
Proof.
  intros Hlr H st Hst. apply __init___Ok in H. destruct H as [_ Hm].
  split.
  - apply update_skip, zero_rate. rewrite Hst, Hm. exact Hlr.
  - rewrite Hst, Hm. reflexivity.
Qed.

(** *** The reach of an epoch *)

(** With a positive learning rate, [n_sequences >= 1], a positive
    sequence length and a cap of at least [n_sequences] samples, no
    slice an update asks for reaches beyond the cap: every epoch
    trains on experiences among the first [samples_per_update] of the
    buffer as it was shuffled for that epoch.  The cap bounds an epoch,
    not the update as a whole. *)
Theorem slices_within_cap (st : State) r st' :
  (0 < current_lr (this st))%Q ->
  1 <= n_sequences (this st) ->
  0 < sequence_length (policy (this st)) ->
  n_sequences (this st) <= samples_per_update (this st) ->
  update st = Ok (r, st') ->
  forall a b,
    In (a, b) (slices (skipn (length (calls st)) (calls st'))) ->
    b <= samples_per_update (this st).
Proof.
  intros Hlr Hn Hs Hcap H a b Hin.
  apply (update_Ok st r st' (positive_rate _ Hlr)) in H.
  destruct H as (_ & _ & lss & _ & Hall & _ & Hcalls & _).
  rewrite Hcalls, skipn_calls in Hin.
  apply (in_slices_epochs _ _ _ _ _ Hall) in Hin.
  destruct Hin as (i & Hi & Hab). unfold slice_of in Hab.
  inversion Hab; subst a b; clear Hab.
  unfold steps_per_epoch in Hi.
  assert (Hmax : 1 <= max_batches (this st)).
  { unfold max_batches. apply Z.div_le_lower_bound; lia. }
  assert (Hnb : num_batches (this st) <= max_batches (this st)).
  { unfold num_batches.
    destruct (Z.eqb_spec (max_batches (this st)) 0); [lia|].
    apply Z.le_min_r. }
  assert (Hspu : n_sequences (this st) * max_batches (this st)
                 <= samples_per_update (this st)).
  { unfold max_batches. apply Z.mul_div_le. lia. }
  set (n := n_sequences (this st)) in *.
  set (s := sequence_length (policy (this st))) in *.
  set (nb := num_batches (this st)) in *.
  assert (Hq : i + 1 <= nb / s) by lia.
  assert (Hqs : s * (nb / s) <= nb) by (apply Z.mul_div_le; lia).
  apply Z.le_trans with (nb / s * n * s); [nia|].
  apply Z.le_trans with (n * nb); [nia|].
  apply Z.le_trans with (n * max_batches (this st)); [nia|exact Hspu].
Qed.

(** With a positive learning rate, [n_sequences >= 1], a positive
    sequence length and no cap in effect ([0 <= samples_per_update <
    n_sequences]), every epoch of an update asks for all the whole
    mini-batches the buffer holds, [num_experiences // (n_sequences *
    sequence_length)] of them from the start of the buffer on, and
    leaves out fewer experiences than one mini-batch holds. *)
Theorem uncapped_epoch_covers_buffer (st : State) r st' :
  (0 < current_lr (this st))%Q ->
  1 <= n_sequences (this st) ->
  0 < sequence_length (policy (this st)) ->
  0 <= samples_per_update (this st) < n_sequences (this st) ->
  update st = Ok (r, st') ->
  let size := n_sequences (this st) * sequence_length (policy (this st)) in
  let whole := num_experiences (demonstration_buffer (this st)) / size in
  slices (skipn (length (calls st)) (calls st'))
  = concat (repeat (map (slice_of (this st)) (range whole))
                   (Z.to_nat (num_epoch (this st))))
  /\ 0 <= num_experiences (demonstration_buffer (this st)) - whole * size
     < size.
Proof.
  intros Hlr Hn Hs Hspu H size whole.
  apply (update_Ok st r st' (positive_rate _ Hlr)) in H.
  destruct H as (_ & _ & lss & Hlen & Hall & _ & Hcalls & _).
  assert (Hsize : 0 < size) by (unfold size; nia).
  assert (Hwhole : num_batches (this st)
                   / sequence_length (policy (this st)) = whole).
  { unfold num_batches, max_batches.
    rewrite (Z.div_small (samples_per_update (this st))) by exact Hspu.
    cbn [Z.eqb]. unfold possible_batches, whole, size.
    apply Z.div_div; lia. }
  split.
  - rewrite Hcalls, skipn_calls, (slices_epochs _ _ _ Hall), Hlen.
    unfold steps_per_epoch. rewrite range_to_nat, Hwhole. reflexivity.
  - pose proof (Z.mul_div_le
                  (num_experiences (demonstration_buffer (this st)))
                  size Hsize).
    pose proof (Z.mul_succ_div_gt
                  (num_experiences (demonstration_buffer (this st)))
                  size Hsize).
    fold whole in H, H0. lia.
Qed.

(** *** Updates that take no step *)

Lemma train_epoch_no_steps pb mb acc e st acc' st' :
  train_epoch pb mb acc e st = Ok (acc', st') ->
  Z.to_nat ((if mb =? 0 then pb else Z.min pb mb)
            / sequence_length (policy (this st))) = O ->
  acc' = acc
  /\ actor_critic (policy (this st')) = actor_critic (policy (this st))
  /\ optimizer (this st') = optimizer (this st).
Proof.
  unfold train_epoch. intros H Hzero.
  bind_inv H.
  call_inv H as u s1 Hsh.
  rewrite shuffle_eq in Hsh. inversion Hsh; subst u s1; clear Hsh.
  bind_inv H. cbn [this policy set_demonstration_buffer] in H.
  lift_inv H as n Hn.
  apply floordiv_Ok in Hn. destruct Hn as [_ ->].
  unfold range in H. rewrite Hzero in H. cbn in H. prim_inv H.
  repeat split.
Qed.

Lemma epochs_loop_no_steps pb mb es : forall acc st acc' st',
  for_each es acc (train_epoch pb mb) st = Ok (acc', st') ->
  Z.to_nat ((if mb =? 0 then pb else Z.min pb mb)
            / sequence_length (policy (this st))) = O ->
  acc' = acc
  /\ actor_critic (policy (this st')) = actor_critic (policy (this st))
  /\ optimizer (this st') = optimizer (this st).
Proof.
  induction es as [|e es IH]; intros acc st acc' st' H Hzero.
  - cbn in H. prim_inv H. repeat split.
  - cbn [for_each] in H. call_inv H as acc1 s1 H1.
    pose proof (train_epoch_Ok _ _ _ _ _ _ _ H1)
      as (_ & _ & _ & _ & _ & Hset & _).
    apply settings_sequence_length in Hset.
    apply (train_epoch_no_steps _ _ _ _ _ _ _ H1) in Hzero as Hstep.
    destruct Hstep as (-> & Hp & Ho).
    apply IH in H; [|rewrite Hset; exact Hzero].
    destruct H as (-> & Hp' & Ho').
    rewrite Hp', Ho', Hp, Ho. repeat split.
Qed.

(** With a positive learning rate and fewer batches than the sequence
    length, an update that returns has still shuffled the buffer once
    per epoch, but it has left the parameters of the policy and the
    state of the optimiser as they were. *)
Theorem update_without_batches_keeps_networks (st : State) r st' :
  (0 < current_lr (this st))%Q ->
  0 < sequence_length (policy (this st)) ->
  num_batches (this st) < sequence_length (policy (this st)) ->
  update st = Ok (r, st') ->
  actor_critic (policy (this st')) = actor_critic (policy (this st))
  /\ optimizer (this st') = optimizer (this st)
  /\ shuffles (skipn (length (calls st)) (calls st'))
     = Z.to_nat (num_epoch (this st)).
Proof.
  intros Hlr Hs Hnb H.
  pose proof (update_Ok st r st' (positive_rate _ Hlr) H)
    as (_ & _ & lss & Hlen & _ & _ & Hcalls & _).
  assert (Hzero : Z.to_nat (num_batches (this st)
                            / sequence_length (policy (this st))) = O).
  { assert (num_batches (this st) / sequence_length (policy (this st)) < 1)
      by (apply Z.div_lt_upper_bound; lia).
    lia. }
  split; [|split].
  3: { rewrite Hcalls, skipn_calls, shuffles_epochs. exact Hlen. }
  all: unfold update in H; bind_inv H;
    rewrite (positive_rate _ Hlr) in H;
    lift_inv H as pb Hpb; apply floordiv_Ok in Hpb; destruct Hpb as [_ ->];
    lift_inv H as mb Hmb; apply floordiv_Ok in Hmb; destruct Hmb as [_ ->];
    call_inv H as batch_losses s1 Hloop;
    apply epochs_loop_no_steps in Hloop; [|exact Hzero];
    destruct Hloop as (_ & Hp & Ho);
    bind_inv H; bind_inv H; prim_inv H; cbn; assumption.
Qed.


(** *** The size of the losses *)

Lemma Rsum_nonneg xs : Forall (fun x => 0 <= x)%R xs -> (0 <= Rsum xs)%R.
Proof.
  unfold Rsum. induction 1 as [|x xs Hx _ IH]; cbn; lra.
Qed.

Lemma Rsum_zero xs :
  Forall (fun x => 0 <= x)%R xs ->
  Rsum xs = 0%R -> Forall (fun x => x = 0%R) xs.
Proof.
  induction 1 as [|x xs Hx Hxs IH]; intros Hsum; [constructor|].
  pose proof (Rsum_nonneg xs Hxs). unfold Rsum in *. cbn in Hsum.
  constructor; [lra|apply IH; lra].
Qed.

Lemma Rsum_zeros xs : Forall (fun x => x = 0%R) xs -> Rsum xs = 0%R.
Proof.
  unfold Rsum. induction 1 as [|x xs Hx _ IH]; cbn; [reflexivity|].
  rewrite Hx, IH. lra.
Qed.

Lemma mean_of_nonneg xs r :
  Forall (fun x => 0 <= x)%R xs -> mean_of xs = Real r -> (0 <= r)%R.
Proof.
  intros Hxs H. destruct xs as [|x xs]; [discriminate|].
  pose proof (Rsum_nonneg _ Hxs) as Hsum.
  inversion H; subst r; clear H.
  apply Rmult_le_pos; [exact Hsum|].
  apply Rlt_le, Rinv_0_lt_compat, (lt_0_INR (length (x :: xs))). cbn. lia.
Qed.

Lemma mean_of_zero xs r :
  Forall (fun x => 0 <= x)%R xs -> mean_of xs = Real r ->
  (r = 0%R <-> Forall (fun x => x = 0%R) xs).
Proof.
  intros Hxs H. destruct xs as [|x xs]; [discriminate|].
  inversion H; subst r; clear H.
  assert (Hlen : (0 < INR (length (x :: xs)))%R)
    by (apply lt_0_INR; cbn; lia).
  pose proof (Rinv_0_lt_compat _ Hlen) as Hinv.
  split.
  - intros Hr. apply Rsum_zero; [exact Hxs|].
    change (Rsum (x :: xs) * / INR (length (x :: xs)) = 0)%R in Hr.
    apply Rmult_integral in Hr.
    destruct Hr as [Hr|Hr]; [exact Hr|lra].
  - intros Hz.
    change (Rsum (x :: xs) * / INR (length (x :: xs)) = 0)%R.
    rewrite (Rsum_zeros _ Hz). apply Rmult_0_l.
Qed.

Lemma squares_nonneg xs ys :
  Forall (fun x => 0 <= x)%R (zip_with (fun x y => Rsqr (x - y)) xs ys).
Proof.
  revert ys. induction xs as [|x xs IH]; intros [|y ys]; cbn;
    try constructor; [apply Rle_0_sqr|apply IH].
Qed.

Lemma squares_zero xs : forall ys,
  length xs = length ys ->
  Forall (fun x => x = 0%R) (zip_with (fun x y => Rsqr (x - y)) xs ys) ->
  xs = ys.
Proof.
  induction xs as [|x xs IH]; intros [|y ys] Hlen H; try discriminate;
    [reflexivity|].
  cbn in H, Hlen. inversion H as [|? ? Hxy Hrest]; subst.
  apply Rsqr_0_uniq in Hxy. f_equal; [lra|]. apply IH; [lia|exact Hrest].
Qed.

Lemma same_shape_length (a : Tensor) : forall b : Tensor,
  same_shape a b = true -> length (concat a) = length (concat b).
Proof.
  induction a as [|r a IH]; intros [|s b] H; try discriminate;
    [reflexivity|].
  cbn in H. apply andb_true_iff in H. destruct H as [Hrow H].
  apply Nat.eqb_eq in Hrow. cbn [concat]. rewrite !length_app, Hrow.
  f_equal. apply IH, H.
Qed.

Lemma same_shape_concat (a : Tensor) : forall b : Tensor,
  same_shape a b = true -> concat a = concat b -> a = b.
Proof.
  induction a as [|r a IH]; intros [|s b] H Hcat; try discriminate;
    [reflexivity|].
  cbn in H. apply andb_true_iff in H. destruct H as [Hrow H].
  apply Nat.eqb_eq in Hrow. cbn [concat] in Hcat.
  apply app_eq_app in Hcat. destruct Hcat as (l & [[-> Hc]|[-> Hc]]).
  - rewrite length_app in Hrow.
    destruct l; [|cbn in Hrow; lia].
    rewrite app_nil_r. cbn in Hc. f_equal. apply IH; [exact H|].
    symmetry. exact Hc.
  - rewrite length_app in Hrow.
    destruct l; [|cbn in Hrow; lia].
    rewrite app_nil_r. cbn in Hc. f_equal. apply IH; assumption.
Qed.

Lemma zip_with_nil {A B C : Type} (f : A -> B -> C) xs : forall ys,
  length xs = length ys -> zip_with f xs ys = [] -> xs = [].
Proof.
  destruct xs as [|x xs]; intros [|y ys] Hlen H; try discriminate;
    reflexivity.
Qed.

(** For a policy with a continuous action space and sampled and expert
    actions of the same shape, the loss of a mini-batch without entries
    is [NaN]; in every other case it is a real number, never negative,
    and 0 exactly when the sampled actions are the expert's. *)
Theorem continuous_loss_size
        (self : TorchBCModule) (selected_actions log_probs expert : Tensor) :
  use_continuous_act (policy self) = true ->
  same_shape selected_actions expert = true ->
  (concat selected_actions = [] ->
   _behavioral_cloning_loss self selected_actions log_probs
                            (ExpertTensor expert) = Ok NaN)
  /\ (concat selected_actions <> [] ->
      exists r,
        _behavioral_cloning_loss self selected_actions log_probs
                                 (ExpertTensor expert) = Ok (Real r)
        /\ (0 <= r)%R
        /\ (r = 0%R <-> selected_actions = expert)).
Proof.
  intros Hc Hshape.
  assert (Hloss : _behavioral_cloning_loss self selected_actions log_probs
                                           (ExpertTensor expert)
                  = Ok (mean_squared_error selected_actions expert)).
  { unfold _behavioral_cloning_loss. rewrite Hc.
    unfold torch.mse_loss, torch.mean, mean_squared_error.
    rewrite (concat_square_sub _ _ Hshape). reflexivity. }
  rewrite Hloss. unfold mean_squared_error.
  pose proof (same_shape_length _ _ Hshape) as Hlen.
  split.
  - intros Hnil. rewrite Hnil. reflexivity.
  - intros Hne.
    destruct (mean_of (zip_with (fun x y => Rsqr (x - y))
                                (concat selected_actions) (concat expert)))
      as [r|] eqn:Hmean.
    + exists r. split; [reflexivity|].
      split; [exact (mean_of_nonneg _ _ (squares_nonneg _ _) Hmean)|].
      rewrite (mean_of_zero _ _ (squares_nonneg _ _) Hmean). split.
      * intros Hz. apply same_shape_concat; [exact Hshape|].
        apply squares_zero; assumption.
      * intros <-. clear. induction (concat selected_actions) as [|x xs IH];
          cbn; constructor; [|exact IH].
        unfold Rminus. rewrite Rplus_opp_r. apply Rsqr_0.
    + exfalso. unfold mean_of in Hmean.
      destruct (zip_with _ _ _) eqn:Hzip; [|discriminate].
      apply Hne. exact (zip_with_nil _ _ _ Hlen Hzip).
Qed.

(** *** The loss of a discrete action space *)

Lemma zip_with_Forall {A B C : Type} (f : A -> B -> C)
      (P : A -> Prop) (Q : B -> Prop) (S : C -> Prop) xs :
  (forall x y, P x -> Q y -> S (f x y)) ->
  Forall P xs -> forall ys, Forall Q ys -> Forall S (zip_with f xs ys).
Proof.
  intros Hf Hxs. induction Hxs as [|x xs Hx _ IH];
    intros ys Hys; [constructor|].
  destruct Hys as [|y ys Hy Hys]; cbn; constructor; [apply Hf|apply IH];
    assumption.
Qed.

Lemma mean3_entries (P : R -> Prop) (ts : list Tensor) :
  Forall (Forall (Forall P)) ts -> Forall P (concat (map (@concat R) ts)).
Proof.
  intros H. apply Forall_concat, Forall_map.
  eapply Forall_impl; [|exact H]. intros t Ht. apply Forall_concat, Ht.
Qed.

Lemma ln_exp_le x s : (exp x <= s)%R -> (x <= ln s)%R.
Proof.
  intros [Hlt|Heq].
  - rewrite <- (ln_exp x) at 1. apply Rlt_le, ln_increasing;
      [apply exp_pos|exact Hlt].
  - rewrite <- Heq, ln_exp. apply Rle_refl.
Qed.

Lemma dominates_self row C :
  Forall (fun c => 0 <= c)%R C ->
  dominates (zip_with Rplus (map exp row) C) row.
Proof.
  unfold dominates. intros HC. revert row.
  induction HC as [|c C Hc _ IH]; intros [|x row]; cbn; try constructor.
  - cbn. lra.
  - apply IH.
Qed.

Lemma dominates_more row : forall C er,
  Forall (fun e => 0 <= e)%R er ->
  dominates C row -> dominates (zip_with Rplus er C) row.
Proof.
  unfold dominates.
  induction row as [|x row IH]; intros C er Her H; [constructor|].
  destruct C as [|c C]; [destruct er; constructor|].
  destruct Her as [|e er He Her]; [constructor|].
  cbn in H |- *. inversion H as [|? ? Hxc Hrest]; subst.
  constructor; [cbn in Hxc |- *; lra|apply IH; assumption].
Qed.

Lemma exps_nonneg row : Forall (fun e => 0 <= e)%R (map exp row).
Proof.
  apply Forall_map, Forall_forall. intros x _. apply Rlt_le, exp_pos.
Qed.

Lemma column_sums_nonneg rows :
  Forall (Forall (fun e => 0 <= e)%R) rows ->
  Forall (fun e => 0 <= e)%R (torch.column_sums rows).
Proof.
  induction 1 as [|r rows Hr Hrows IH]; [constructor|].
  destruct rows as [|r' rows']; [exact Hr|].
  change (Forall (fun e => 0 <= e)%R
                 (zip_with Rplus r (torch.column_sums (r' :: rows')))).
  apply (zip_with_Forall Rplus (fun e => 0 <= e)%R (fun e => 0 <= e)%R);
    [intros; lra|exact Hr|exact IH].
Qed.

Lemma column_sums_dominate (t : Tensor) row :
  In row t -> dominates (torch.column_sums (map (map exp) t)) row.
Proof.
  induction t as [|r t IH]; intros Hin; [destruct Hin|].
  destruct t as [|r' t'].
  - destruct Hin as [<-|[]]. cbn. unfold dominates.
    clear. induction r as [|x r IH]; cbn; constructor;
      [apply Rle_refl|exact IH].
  - change (dominates
              (zip_with Rplus (map exp r)
                        (torch.column_sums (map (map exp) (r' :: t'))))
              row).
    destruct Hin as [<-|Hin].
    + apply dominates_self, column_sums_nonneg.
      apply Forall_map, Forall_forall. intros x _. apply exps_nonneg.
    + apply dominates_more; [apply exps_nonneg|apply IH, Hin].
Qed.

(** Along dimension 0, as along any, no entry of a log-softmax is
    positive. *)
Lemma log_softmax_nonpos (t : Tensor) :
  Forall (Forall (fun v => v <= 0)%R) (torch.log_softmax t 0).
Proof.
  unfold torch.log_softmax. apply Forall_map, Forall_forall.
  intros row Hin. apply column_sums_dominate in Hin.
  unfold dominates in Hin. revert Hin.
  generalize (torch.column_sums (map (map exp) t)). clear.
  induction row as [|x row IH]; intros [|s z] H; cbn; try constructor.
  - cbn in H. inversion H as [|? ? Hxs _]; subst. cbn in Hxs.
    apply ln_exp_le in Hxs. lra.
  - apply IH. cbn in H. inversion H. assumption.
Qed.

Lemma stacked_products_nonneg (pairs : list (Tensor * Tensor)) :
  Forall (fun p => Forall (Forall (fun e => 0 <= e)%R) (snd p)) pairs ->
  Forall (Forall (Forall (fun v => 0 <= v)%R))
         (map (fun '(log_prob_branch, expert_actions_branch) =>
                 torch.mul (torch.neg (torch.log_softmax log_prob_branch 0))
                           expert_actions_branch) pairs).
Proof.
  intros H. apply Forall_map. eapply Forall_impl; [|exact H].
  intros [b e] He. cbn in He. unfold torch.mul, torch.neg.
  apply (zip_with_Forall (zip_with Rmult)
                         (Forall (fun v => 0 <= v)%R)
                         (Forall (fun v => 0 <= v)%R)); [| |exact He].
  - intros r s Hr Hs.
    apply (zip_with_Forall Rmult (fun v => 0 <= v)%R (fun v => 0 <= v)%R);
      [intros; apply Rmult_le_pos; assumption|exact Hr|exact Hs].
  - apply Forall_map. eapply Forall_impl; [|apply log_softmax_nonpos].
    intros r Hr. apply Forall_map. eapply Forall_impl; [|exact Hr].
    intros v Hv. cbv beta in Hv |- *. lra.
Qed.

Lemma combine_snd_Forall {A B : Type} (P : B -> Prop) (xs : list A) :
  forall ys, Forall P ys -> Forall (fun p => P (snd p)) (combine xs ys).
Proof.
  induction xs as [|x xs IH]; intros ys Hys; [constructor|].
  destruct Hys as [|y ys Hy Hys]; cbn; constructor; [exact Hy|apply IH, Hys].
Qed.

(** For a policy with a discrete action space and expert actions
    without a negative entry (one-hot ones in particular), the loss,
    when it is a number, is not negative. *)
Theorem discrete_loss_not_negative
        (self : TorchBCModule) (selected_actions log_probs : Tensor)
        (expert : list Tensor) r :
  use_continuous_act (policy self) = false ->
  Forall (Forall (Forall (fun e => 0 <= e)%R)) expert ->
  _behavioral_cloning_loss self selected_actions log_probs
                           (ExpertBranches expert) = Ok (Real r) ->
  (0 <= r)%R.
Proof.
  intros Hc Hexpert H. unfold _behavioral_cloning_loss in H.
  rewrite Hc in H.
  destruct torch.stack as [stacked|] eqn:Hstack; [|discriminate].
  inversion H as [Hmean]; clear H.
  unfold torch.stack in Hstack.
  destruct (map _ _) as [|t ts] eqn:Hmap; [discriminate|].
  destruct (forallb (same_shape t) ts); [|discriminate].
  inversion Hstack; subst stacked; clear Hstack.
  unfold torch.mean3 in Hmean.
  apply (mean_of_nonneg _ _) in Hmean; [exact Hmean|].
  apply mean3_entries. rewrite <- Hmap.
  apply stacked_products_nonneg, combine_snd_Forall, Hexpert.
Qed.

Lemma one_row_log_softmax (row : list R) :
  Forall (Forall (fun v => v = 0%R)) (torch.log_softmax [row] 0).
Proof.
  unfold torch.log_softmax. cbn. constructor; [|constructor].
  induction row as [|x row IH]; cbn; constructor; [|exact IH].
  rewrite ln_exp. lra.
Qed.

Lemma one_row_branches row sizes :
  Forall (fun b : Tensor => exists r, b = [r])
         (ModelUtils.break_into_branches [row] sizes).
Proof.
  unfold ModelUtils.break_into_branches. apply Forall_map, Forall_forall.
  intros i _. cbn. eexists. reflexivity.
Qed.

(** For a policy with a discrete action space and a mini-batch of a
    single sample, the loss, when it is a number, is 0 whatever the
    log-probabilities and the expert's action are: the log-softmax
    along dimension 0 normalises each action over the one sample there
    is. *)
Theorem discrete_loss_of_one_sample
        (self : TorchBCModule) (selected_actions : Tensor) (row : list R)
        (expert : list Tensor) r :
  use_continuous_act (policy self) = false ->
  _behavioral_cloning_loss self selected_actions [row]
                           (ExpertBranches expert) = Ok (Real r) ->
  r = 0%R.
Proof.
  intros Hc H. unfold _behavioral_cloning_loss in H. rewrite Hc in H.
  destruct torch.stack as [stacked|] eqn:Hstack; [|discriminate].
  inversion H as [Hmean]; clear H.
  unfold torch.stack in Hstack.
  destruct (map _ _) as [|t ts] eqn:Hmap; [discriminate|].
  destruct (forallb (same_shape t) ts); [|discriminate].
  inversion Hstack; subst stacked; clear Hstack.
  unfold torch.mean3 in Hmean.
  assert (Hzero : Forall (fun v => v = 0%R)
                         (concat (map (@concat R) (t :: ts)))).
  { apply mean3_entries. rewrite <- Hmap. apply Forall_map, Forall_forall.
    intros [b e] Hin. apply in_combine_l in Hin.
    pose proof (one_row_branches row (act_size (policy self))) as Hrows.
    rewrite Forall_forall in Hrows. destruct (Hrows b Hin) as [rb ->].
    unfold torch.mul, torch.neg.
    apply (zip_with_Forall (zip_with Rmult)
                           (Forall (fun v => v = 0%R)) (fun _ => True));
      [| |apply Forall_forall; trivial].
    - intros zr er Hzr _.
      apply (zip_with_Forall Rmult (fun v => v = 0%R) (fun _ => True));
        [intros x y -> _; apply Rmult_0_l|exact Hzr
        |apply Forall_forall; trivial].
    - apply Forall_map. eapply Forall_impl; [|apply one_row_log_softmax].
      intros zr Hzr. apply Forall_map. eapply Forall_impl; [|exact Hzr].
      intros v ->. apply Ropp_0. }
  apply (mean_of_zero _ _) in Hmean.
  - apply Hmean, Hzero.
  - eapply Forall_impl; [|exact Hzero]. intros v ->. apply Rle_refl.
Qed.

(** *** Runs without a learning rate *)

(** A run of updates whose learning rates are all 0 or less always
    returns, reports the loss 0 each time, and changes nothing but the
    learning rate it was given: no call is made, and the networks, the
    buffer, the random generators and [has_updated] stay as they
    were. *)
Theorem annealed_updates (lrs : list Q) : forall st : State,
  Forall (fun lr => lr <= 0)%Q lrs ->
  updates lrs st
  = Ok (repeat [("Losses/Pretraining Loss"%string, PyInt 0)] (length lrs),
        {| this := fold_left set_current_lr lrs (this st);
           random_state := random_state st;
           calls := calls st |}).
Proof.
  induction lrs as [|lr lrs IH]; intros st Hall.
  - destruct st. reflexivity.
  - inversion Hall as [|? ? Hlr Hrest]; subst.
    cbn [updates]. unfold bind at 1, get_self.
    unfold bind at 1, put_self. unfold bind at 1.
    rewrite update_skip by (apply zero_rate; exact Hlr).
    unfold bind at 1. rewrite (IH _ Hrest). reflexivity.
Qed.

End Properties.

(** ** The properties on the small world *)

Example demo_init :
  __init__ Demo.demo_policy Demo.demo_settings (3 # 10000) 8 2
  = Ok Demo.demo_module.
Proof. reflexivity. Qed.

Lemma update_without_rate_witness :
  (current_lr (this (Demo.start Demo.annealed_module)) <= 0)%Q
  /\ update (Demo.start Demo.annealed_module)
     = Ok ([("Losses/Pretraining Loss"%string, PyInt 0)],
           Demo.start Demo.annealed_module).
Proof.
  assert (H : (current_lr (this (Demo.start Demo.annealed_module)) <= 0)%Q)
    by (unfold Qle; simpl; lia).
  split; [exact H|].
  exact (update_without_rate (Demo.start Demo.annealed_module) H).
Defined.

Lemma n_sequences_at_least_one_witness :
  sequence_length Demo.demo_policy <> 0
  /\ exists m,
      __init__ Demo.demo_policy Demo.demo_settings (3 # 10000) 8 2 = Ok m
      /\ n_sequences m =
         Z.max (Z.min (batch_size m)
                      (num_experiences (demonstration_buffer m))
                / sequence_length Demo.demo_policy) 1
      /\ 1 <= n_sequences m
      /\ forall lrs st rs st',
          this st = m ->
          updates lrs st = Ok (rs, st') ->
          n_sequences (this st') = n_sequences m.
Proof.
  assert (H : sequence_length Demo.demo_policy <> 0) by discriminate.
  split; [exact H|].
  exact (n_sequences_at_least_one Demo.demo_policy Demo.demo_settings
                                  (3 # 10000) 8 2 H).
Defined.

Lemma has_updated_latches_witness :
  __init__ Demo.demo_policy Demo.demo_settings (3 # 10000) 8 2
  = Ok Demo.demo_module
  /\ has_updated Demo.demo_module = false
  /\ has_updated (this (snd Demo.trained)) = true
  /\ has_updated (this (snd Demo.trained_then_annealed)) = true.
Proof.
  assert (H : __init__ Demo.demo_policy Demo.demo_settings (3 # 10000) 8 2
              = Ok Demo.demo_module) by reflexivity.
  destruct (has_updated_latches _ _ _ _ _ _ H) as (Hnew & Hset & Hkeep).
  split; [exact H|]. split; [exact Hnew|].
  assert (Hfirst : has_updated (this (snd Demo.trained)) = true).
  { apply (Hset (Demo.start Demo.demo_module) (fst Demo.trained)).
    - reflexivity.
    - vm_compute. reflexivity. }
  split; [exact Hfirst|].
  apply (Hkeep [0%Q; 0%Q] (snd Demo.trained)
               (fst Demo.trained_then_annealed)).
  - exact Hfirst.
  - vm_compute. reflexivity.
Defined.

Lemma demo_update :
  update (Demo.start Demo.demo_module)
  = Ok (fst Demo.trained, snd Demo.trained).
Proof. vm_compute. reflexivity. Defined.

Lemma demo_rate : (0 < current_lr (this (Demo.start Demo.demo_module)))%Q.
Proof. reflexivity. Defined.

Lemma batches_of_an_epoch_witness :
  (0 < current_lr (this (Demo.start Demo.small_cap_module)))%Q
  /\ update (Demo.start Demo.small_cap_module)
     = Ok (fst Demo.small_cap_trained, snd Demo.small_cap_trained)
  /\ 0 <= samples_per_update Demo.small_cap_module
     < n_sequences Demo.small_cap_module
  /\ slices (calls (snd Demo.small_cap_trained))
     = [(0, 4); (4, 8); (0, 4); (4, 8)]
  /\ slices (calls (snd Demo.small_cap_trained))
     = slices (calls (snd Demo.trained)).
Proof.
  assert (Hlr : (0 < current_lr (this (Demo.start Demo.small_cap_module)))%Q)
    by reflexivity.
  assert (Hrun : update (Demo.start Demo.small_cap_module)
                 = Ok (fst Demo.small_cap_trained, snd Demo.small_cap_trained))
    by (vm_compute; reflexivity).
  assert (Hcap : 0 <= samples_per_update Demo.small_cap_module
                 < n_sequences Demo.small_cap_module) by (cbn; lia).
  destruct (batches_of_an_epoch _ _ _ Hlr Hrun)
    as [(new & Hcalls & Hslices & _) Hsame].
  destruct (Hsame Hcap) as (_ & _ & Hunbounded).
  split; [exact Hlr|]. split; [exact Hrun|]. split; [exact Hcap|]. split.
  - cbn [Demo.start calls app] in Hcalls. rewrite Hcalls, Hslices.
    reflexivity.
  - exact (Hunbounded _ _ demo_update).
Defined.


Lemma metrics_of_an_update_witness :
  update (Demo.start Demo.demo_module)
  = Ok (fst Demo.trained, snd Demo.trained)
  /\ exists v,
      fst Demo.trained = [("Losses/Pretraining Loss"%string, v)]
      /\ length (losses (calls (snd Demo.trained))) = 4%nat
      /\ v = PyFloat (Real 1)
      /\ ~ is_zero v.
Proof.
  split; [exact demo_update|].
  destruct (metrics_of_an_update _ _ _ demo_update)
    as (v & Hr & _ & Hmean & _).
  destruct (Hmean demo_rate) as (lss & _ & _ & _ & Hlosses & Hv & _).
  assert (Hone : v = PyFloat (Real 1)).
  { rewrite Hv, <- Hlosses.
    cbv -[Rplus Rminus Rmult Rdiv Rinv IZR INR].
    do 2 f_equal. simpl INR. lra. }
  exists v. split; [exact Hr|]. split; [reflexivity|].
  split; [exact Hone|].
  rewrite Hone. cbn. lra.
Defined.

(** The claim C6 as it is stated fails: the value 0 is also returned
    with a positive learning rate and gradient steps taken.  The
    discrete module whose mini-batches hold one sample takes two
    gradient steps, each with the loss 0, and reports their mean, the
    float 0. *)
Lemma zero_mean_with_positive_rate :
  ~ (forall (st : State (E := Demo.env)) v st',
        update st = Ok ([("Losses/Pretraining Loss"%string, v)], st') ->
        (is_zero v <->
         (current_lr (this st) <= 0)%Q
         /\ losses (skipn (length (calls st)) (calls st')) = [])).
Proof.
  intros H.
  specialize (H (Demo.start Demo.single_sample_module)
                Demo.single_sample_value
                (snd Demo.single_sample_trained)).
  assert (Hrun : update (Demo.start Demo.single_sample_module)
                 = Ok ([("Losses/Pretraining Loss"%string,
                         Demo.single_sample_value)],
                       snd Demo.single_sample_trained))
    by (vm_compute; reflexivity).
  assert (Hzero : is_zero Demo.single_sample_value).
  { cbv [Demo.single_sample_value is_zero]. rewrite ln_exp.
    simpl INR. lra. }
  destruct (proj1 (H Hrun) Hzero) as [Hlr Hsteps].
  discriminate Hsteps.
Qed.

Lemma update_without_batches_witness :
  (0 < current_lr (this (Demo.start Demo.long_sequence_module)))%Q
  /\ 0 < sequence_length (policy (this (Demo.start Demo.long_sequence_module)))
  /\ num_batches (this (Demo.start Demo.long_sequence_module))
     < sequence_length (policy (this (Demo.start Demo.long_sequence_module)))
  /\ update (Demo.start Demo.long_sequence_module)
     = Ok (fst Demo.long_sequence_trained, snd Demo.long_sequence_trained)
  /\ fst Demo.long_sequence_trained
     = [("Losses/Pretraining Loss"%string, PyFloat NaN)]
  /\ has_updated (this (snd Demo.long_sequence_trained)) = true.
Proof.
  assert (Hlr : (0 < current_lr (this (Demo.start Demo.long_sequence_module)))%Q)
    by reflexivity.
  assert (Hs : 0 < sequence_length
                     (policy (this (Demo.start Demo.long_sequence_module))))
    by reflexivity.
  assert (Hnb : num_batches (this (Demo.start Demo.long_sequence_module))
                < sequence_length
                    (policy (this (Demo.start Demo.long_sequence_module))))
    by reflexivity.
  assert (Hrun : update (Demo.start Demo.long_sequence_module)
                 = Ok (fst Demo.long_sequence_trained,
                       snd Demo.long_sequence_trained))
    by (vm_compute; reflexivity).
  destruct (update_without_batches _ _ _ Hlr Hs Hnb Hrun)
    as (Hnan & Hupd & _).
  split; [exact Hlr|]. split; [exact Hs|]. split; [exact Hnb|].
  split; [exact Hrun|]. split; [exact Hnan|exact Hupd].
Defined.

Lemma slices_within_buffer_witness :
  (0 < current_lr (this (Demo.start Demo.demo_module)))%Q
  /\ 1 <= n_sequences (this (Demo.start Demo.demo_module))
  /\ 0 < sequence_length (policy (this (Demo.start Demo.demo_module)))
  /\ update (Demo.start Demo.demo_module)
     = Ok (fst Demo.trained, snd Demo.trained)
  /\ (forall a b,
        In (a, b) (slices (calls (snd Demo.trained))) ->
        0 <= a < b /\ b <= 8)
  /\ num_experiences (demonstration_buffer (this (snd Demo.trained))) = 8.
Proof.
  assert (Hn : 1 <= n_sequences (this (Demo.start Demo.demo_module)))
    by (cbn; lia).
  assert (Hs : 0 < sequence_length
                     (policy (this (Demo.start Demo.demo_module))))
    by reflexivity.
  destruct (slices_within_buffer _ _ _ demo_rate Hn Hs demo_update)
    as (_ & Hin & Hkeep).
  split; [exact demo_rate|]. split; [exact Hn|]. split; [exact Hs|].
  split; [exact demo_update|]. split.
  - intros a b Hab. destruct (Hin a b Hab) as (Ha & _ & Hb).
    split; [exact Ha|exact Hb].
  - rewrite Hkeep; [reflexivity|].
    intros b s g. cbn. rewrite length_rev. reflexivity.
Defined.

Lemma continuous_loss_is_mean_squared_error_witness :
  use_continuous_act (policy Demo.demo_module) = true
  /\ same_shape Demo.two_selected_actions Demo.two_continuous_actions = true
  /\ _behavioral_cloning_loss Demo.demo_module Demo.two_selected_actions []
                              (ExpertTensor Demo.two_continuous_actions)
     = Ok (mean_squared_error Demo.two_selected_actions
                              Demo.two_continuous_actions).
Proof.
  assert (Hc : use_continuous_act (policy Demo.demo_module) = true)
    by reflexivity.
  assert (Hshape : same_shape Demo.two_selected_actions
                              Demo.two_continuous_actions = true)
    by reflexivity.
  split; [exact Hc|]. split; [exact Hshape|].
  exact (continuous_loss_is_mean_squared_error
           Demo.demo_module Demo.two_selected_actions []
           Demo.two_continuous_actions Hc Hshape).
Defined.

(** The mean squared error of the two samples: the differences are
    -1/2, 0, 1 and 0. *)
Example two_sample_mean_squared_error :
  _behavioral_cloning_loss Demo.demo_module Demo.two_selected_actions []
                           (ExpertTensor Demo.two_continuous_actions)
  = Ok (Real (5 / 16)).
Proof.
  cbv -[Rplus Rminus Rmult Rdiv Rinv IZR INR].
  do 2 f_equal. simpl INR. lra.
Qed.

(** The claim C3 as it is stated, without the lower bound on
    [samples_per_update], fails: with a cap of -1 sample and
    [n_sequences = 2], [max_batches] is [-1 // 2 = -1], not 0, so
    [num_batches] is [min 4 (-1) = -1] and the update asks for no
    slice at all, where the update without a cap asks for two in each
    of its two epochs. *)
Lemma negative_cap_is_not_unbounded :
  ~ (forall (st : State (E := Demo.env)) r st' r0 st0',
        (0 < current_lr (this st))%Q ->
        samples_per_update (this st) < n_sequences (this st) ->
        update st = Ok (r, st') ->
        update (unbounded st) = Ok (r0, st0') ->
        length (slices (skipn (length (calls st)) (calls st')))
        = length (slices (skipn (length (calls st)) (calls st0')))).
Proof.
  intros H.
  specialize (H (Demo.start Demo.negative_cap_module)
                (fst Demo.negative_cap_trained)
                (snd Demo.negative_cap_trained)
                (fst Demo.trained) (snd Demo.trained)).
  assert (Hlen : 0%nat = 4%nat); [|discriminate Hlen].
  apply H.
  - reflexivity.
  - reflexivity.
  - vm_compute. reflexivity.
  - vm_compute. reflexivity.
Qed.

(** C2.  The loss of a discrete action space is not the cross-entropy
    the claim describes: the code takes the log-softmax along
    dimension 0, which normalises each action over the samples of the
    batch, not each sample over the actions of the branch.  For one
    branch of two actions and the two samples of [Demo.two_log_probs],
    the code returns [ln (5/2) / 4]; the per-sample cross-entropy
    averaged over the batch is [ln (8/3) / 2], and the same products
    with the normalisation over the actions, averaged over all
    entries, give [ln (8/3) / 4]. *)
Theorem discrete_loss_normalises_over_the_batch :
  _behavioral_cloning_loss Demo.discrete_module [[0]; [1]]%R
                           Demo.two_log_probs
                           (ExpertBranches Demo.two_expert_actions)
  = Ok (Real (ln (5 / 2) / 4))
  /\ cross_entropy_loss [2%nat] Demo.two_log_probs Demo.two_expert_actions
     = Real (ln (8 / 3) / 2)
  /\ entrywise_cross_entropy_loss [2%nat] Demo.two_log_probs
                                  Demo.two_expert_actions
     = Real (ln (8 / 3) / 4)
  /\ (ln (5 / 2) / 4 < ln (8 / 3) / 4 < ln (8 / 3) / 2)%R.
Proof.
  assert (H12 : exp (ln (1 / 2)) = (1 / 2)%R) by (apply exp_ln; lra).
  assert (H14 : exp (ln (1 / 4)) = (1 / 4)%R) by (apply exp_ln; lra).
  assert (H34 : exp (ln (3 / 4)) = (3 / 4)%R) by (apply exp_ln; lra).
  assert (L52 : ln (5 / 2) = (ln (5 / 4) - ln (1 / 2))%R).
  { replace (5 / 2)%R with (5 / 4 * / (1 / 2))%R by field.
    rewrite ln_mult, ln_Rinv by lra. lra. }
  assert (L83 : ln (8 / 3) = (- ln (1 / 2) - ln (3 / 4))%R).
  { replace (8 / 3)%R with (/ (1 / 2) * / (3 / 4))%R by field.
    rewrite ln_mult, !ln_Rinv by lra. lra. }
  repeat split.
  - cbv -[Rplus Rminus Rmult Rdiv Rinv IZR INR exp ln Ropp].
    do 2 f_equal. rewrite H12, H14, H34.
    replace (1 / 2 + 1 / 4)%R with (3 / 4)%R by lra.
    replace (1 / 2 + 3 / 4)%R with (5 / 4)%R by lra.
    rewrite L52. simpl INR. lra.
  - cbv -[Rplus Rminus Rmult Rdiv Rinv IZR INR exp ln Ropp].
    f_equal. rewrite H12, H14, H34.
    replace (1 / 2 + (1 / 2 + 0))%R with 1%R by lra.
    replace (1 / 4 + (3 / 4 + 0))%R with 1%R by lra.
    rewrite L83, ln_1. simpl INR. lra.
  - cbv -[Rplus Rminus Rmult Rdiv Rinv IZR INR exp ln Ropp].
    f_equal. rewrite H12, H14, H34.
    replace (1 / 2 + (1 / 2 + 0))%R with 1%R by lra.
    replace (1 / 4 + (3 / 4 + 0))%R with 1%R by lra.
    rewrite L83, ln_1. simpl INR. lra.
  - assert (ln (5 / 2) < ln (8 / 3))%R by (apply ln_increasing; lra). lra.
  - assert (0 < ln (8 / 3))%R.
    { rewrite <- ln_1. apply ln_increasing; lra. }
    lra.
Qed.

(** ** The further properties on the small world *)


Lemma update_without_epochs_witness :
  (0 < current_lr (this (Demo.start Demo.no_epoch_module)))%Q
  /\ n_sequences (this (Demo.start Demo.no_epoch_module)) <> 0
  /\ num_epoch (this (Demo.start Demo.no_epoch_module)) <= 0
  /\ update (Demo.start Demo.no_epoch_module)
     = Ok ([("Losses/Pretraining Loss"%string, PyFloat NaN)],
           {| this := set_has_updated Demo.no_epoch_module true;
              random_state := 0;
              calls := [] |}).
Proof.
  assert (Hlr : (0 < current_lr (this (Demo.start Demo.no_epoch_module)))%Q)
    by reflexivity.
  assert (Hn : n_sequences (this (Demo.start Demo.no_epoch_module)) <> 0)
    by discriminate.
  assert (He : num_epoch (this (Demo.start Demo.no_epoch_module)) <= 0)
    by (cbn; lia).
  split; [exact Hlr|]. split; [exact Hn|]. split; [exact He|].
  exact (update_without_epochs _ Hlr Hn He).
Defined.

Lemma update_keeps_settings_witness :
  update (Demo.start Demo.demo_module)
  = Ok (fst Demo.trained, snd Demo.trained)
  /\ current_lr (this (snd Demo.trained)) = current_lr Demo.demo_module
  /\ n_sequences (this (snd Demo.trained)) = 2
  /\ sequence_length (policy (this (snd Demo.trained))) = 2.
Proof.
  split; [exact demo_update|].
  destruct (update_keeps_settings _ _ _ demo_update)
    as (Hlr & _ & _ & Hn & _ & _ & Hs & _).
  split; [exact Hlr|]. split; [exact Hn|exact Hs].
Defined.



Lemma mini_batch_size_witness :
  0 < sequence_length Demo.demo_policy
  /\ __init__ Demo.demo_policy Demo.demo_settings (3 # 10000) 8 2
     = Ok Demo.demo_module
  /\ n_sequences Demo.demo_module * sequence_length Demo.demo_policy <= 4
  /\ 4 < (n_sequences Demo.demo_module + 1)
         * sequence_length Demo.demo_policy.
Proof.
  assert (Hs : 0 < sequence_length Demo.demo_policy) by reflexivity.
  assert (H : __init__ Demo.demo_policy Demo.demo_settings (3 # 10000) 8 2
              = Ok Demo.demo_module) by reflexivity.
  destruct (mini_batch_size _ _ _ _ _ _ Hs H) as [Hfit _].
  split; [exact Hs|]. split; [exact H|].
  apply Hfit. cbn. lia.
Defined.

Lemma constructed_module_updates_witness :
  use_continuous_act Demo.demo_policy = true
  /\ __init__ Demo.demo_policy Demo.demo_settings (3 # 10000) 8 2
     = Ok Demo.demo_module
  /\ exists rs st',
      updates [3 # 20000; 0]%Q (Demo.start Demo.demo_module) = Ok (rs, st')
      /\ length rs = 2%nat.
Proof.
  assert (Hc : use_continuous_act Demo.demo_policy = true) by reflexivity.
  assert (H : __init__ Demo.demo_policy Demo.demo_settings (3 # 10000) 8 2
              = Ok Demo.demo_module) by reflexivity.
  split; [exact Hc|]. split; [exact H|].
  exact (constructed_module_updates _ _ _ _ _ _ Hc H [3 # 20000; 0]%Q
                                    (Demo.start Demo.demo_module) eq_refl).
Defined.

Lemma constructed_without_rate_witness :
  ((3 # 10000) * Settings.strength Demo.idle_settings <= 0)%Q
  /\ __init__ Demo.demo_policy Demo.idle_settings (3 # 10000) 8 2
     = Ok Demo.idle_module
  /\ update (Demo.start Demo.idle_module)
     = Ok ([("Losses/Pretraining Loss"%string, PyInt 0)],
           Demo.start Demo.idle_module)
  /\ has_updated (this (Demo.start Demo.idle_module)) = false.
Proof.
  assert (Hlr : ((3 # 10000) * Settings.strength Demo.idle_settings <= 0)%Q)
    by (unfold Qle; simpl; lia).
  assert (H : __init__ Demo.demo_policy Demo.idle_settings (3 # 10000) 8 2
              = Ok Demo.idle_module) by reflexivity.
  split; [exact Hlr|]. split; [exact H|].
  exact (constructed_without_rate _ _ _ _ _ _ Hlr H
                                  (Demo.start Demo.idle_module) eq_refl).
Defined.

Lemma slices_within_cap_witness :
  (0 < current_lr (this (Demo.start Demo.capped_module)))%Q
  /\ 1 <= n_sequences (this (Demo.start Demo.capped_module))
  /\ 0 < sequence_length (policy (this (Demo.start Demo.capped_module)))
  /\ n_sequences (this (Demo.start Demo.capped_module))
     <= samples_per_update (this (Demo.start Demo.capped_module))
  /\ update (Demo.start Demo.capped_module)
     = Ok (fst Demo.capped_trained, snd Demo.capped_trained)
  /\ slices (calls (snd Demo.capped_trained)) = [(0, 4); (0, 4)]
  /\ forall a b, In (a, b) (slices (calls (snd Demo.capped_trained))) -> b <= 4.
Proof.
  assert (Hlr : (0 < current_lr (this (Demo.start Demo.capped_module)))%Q)
    by reflexivity.
  assert (Hn : 1 <= n_sequences (this (Demo.start Demo.capped_module)))
    by (cbn; lia).
  assert (Hs : 0 < sequence_length
                     (policy (this (Demo.start Demo.capped_module))))
    by reflexivity.
  assert (Hcap : n_sequences (this (Demo.start Demo.capped_module))
                 <= samples_per_update (this (Demo.start Demo.capped_module)))
    by (cbn; lia).
  assert (H : update (Demo.start Demo.capped_module)
              = Ok (fst Demo.capped_trained, snd Demo.capped_trained))
    by (vm_compute; reflexivity).
  split; [exact Hlr|]. split; [exact Hn|]. split; [exact Hs|].
  split; [exact Hcap|]. split; [exact H|]. split; [reflexivity|].
  exact (slices_within_cap _ _ _ Hlr Hn Hs Hcap H).
Defined.

Lemma uncapped_epoch_covers_buffer_witness :
  (0 < current_lr (this (Demo.start Demo.demo_module)))%Q
  /\ 1 <= n_sequences (this (Demo.start Demo.demo_module))
  /\ 0 < sequence_length (policy (this (Demo.start Demo.demo_module)))
  /\ 0 <= samples_per_update (this (Demo.start Demo.demo_module))
     < n_sequences (this (Demo.start Demo.demo_module))
  /\ update (Demo.start Demo.demo_module)
     = Ok (fst Demo.trained, snd Demo.trained)
  /\ slices (calls (snd Demo.trained)) = [(0, 4); (4, 8); (0, 4); (4, 8)].
Proof.
  assert (Hn : 1 <= n_sequences (this (Demo.start Demo.demo_module)))
    by (cbn; lia).
  assert (Hs : 0 < sequence_length
                     (policy (this (Demo.start Demo.demo_module))))
    by reflexivity.
  assert (Hspu : 0 <= samples_per_update (this (Demo.start Demo.demo_module))
                 < n_sequences (this (Demo.start Demo.demo_module)))
    by (cbn; lia).
  destruct (uncapped_epoch_covers_buffer _ _ _ demo_rate Hn Hs Hspu
                                         demo_update) as [Hslices _].
  split; [exact demo_rate|]. split; [exact Hn|]. split; [exact Hs|].
  split; [exact Hspu|]. split; [exact demo_update|exact Hslices].
Defined.

Lemma long_sequence_update :
  update (Demo.start Demo.long_sequence_module)
  = Ok (fst Demo.long_sequence_trained, snd Demo.long_sequence_trained).
Proof. vm_compute. reflexivity. Defined.

Lemma update_without_batches_keeps_networks_witness :
  (0 < current_lr (this (Demo.start Demo.long_sequence_module)))%Q
  /\ 0 < sequence_length (policy (this (Demo.start Demo.long_sequence_module)))
  /\ num_batches (this (Demo.start Demo.long_sequence_module))
     < sequence_length (policy (this (Demo.start Demo.long_sequence_module)))
  /\ update (Demo.start Demo.long_sequence_module)
     = Ok (fst Demo.long_sequence_trained, snd Demo.long_sequence_trained)
  /\ actor_critic (policy (this (snd Demo.long_sequence_trained)))
     = actor_critic (policy Demo.long_sequence_module)
  /\ optimizer (this (snd Demo.long_sequence_trained))
     = optimizer Demo.long_sequence_module
  /\ shuffles (calls (snd Demo.long_sequence_trained)) = 2%nat.
Proof.
  assert (Hlr : (0 < current_lr (this (Demo.start Demo.long_sequence_module)))%Q)
    by reflexivity.
  assert (Hs : 0 < sequence_length
                     (policy (this (Demo.start Demo.long_sequence_module))))
    by reflexivity.
  assert (Hnb : num_batches (this (Demo.start Demo.long_sequence_module))
                < sequence_length
                    (policy (this (Demo.start Demo.long_sequence_module))))
    by reflexivity.
  destruct (update_without_batches_keeps_networks
              _ _ _ Hlr Hs Hnb long_sequence_update) as (Hp & Ho & Hsh).
  split; [exact Hlr|]. split; [exact Hs|]. split; [exact Hnb|].
  split; [exact long_sequence_update|]. split; [exact Hp|].
  split; [exact Ho|exact Hsh].
Defined.


Lemma continuous_loss_size_witness :
  use_continuous_act (policy Demo.demo_module) = true
  /\ same_shape Demo.two_selected_actions Demo.two_continuous_actions = true
  /\ concat Demo.two_selected_actions <> []
  /\ exists r,
      _behavioral_cloning_loss Demo.demo_module Demo.two_selected_actions []
                               (ExpertTensor Demo.two_continuous_actions)
      = Ok (Real r)
      /\ (0 <= r)%R.
Proof.
  assert (Hc : use_continuous_act (policy Demo.demo_module) = true)
    by reflexivity.
  assert (Hshape : same_shape Demo.two_selected_actions
                              Demo.two_continuous_actions = true)
    by reflexivity.
  assert (Hne : concat Demo.two_selected_actions <> []) by discriminate.
  destruct (continuous_loss_size Demo.demo_module Demo.two_selected_actions
                                 [] Demo.two_continuous_actions Hc Hshape)
    as [_ Hreal].
  destruct (Hreal Hne) as (r & Hloss & Hr & _).
  split; [exact Hc|]. split; [exact Hshape|]. split; [exact Hne|].
  exists r. split; [exact Hloss|exact Hr].
Defined.

Lemma discrete_loss_not_negative_witness :
  use_continuous_act (policy Demo.discrete_module) = false
  /\ Forall (Forall (Forall (fun e => 0 <= e)%R)) Demo.two_expert_actions
  /\ _behavioral_cloning_loss Demo.discrete_module [[0]; [1]]%R
                              Demo.two_log_probs
                              (ExpertBranches Demo.two_expert_actions)
     = Ok (Real Demo.two_sample_discrete_loss)
  /\ (0 <= Demo.two_sample_discrete_loss)%R.
Proof.
  assert (Hc : use_continuous_act (policy Demo.discrete_module) = false)
    by reflexivity.
  assert (He : Forall (Forall (Forall (fun e => 0 <= e)%R))
                      Demo.two_expert_actions)
    by (repeat constructor; lra).
  assert (H : _behavioral_cloning_loss Demo.discrete_module [[0]; [1]]%R
                                       Demo.two_log_probs
                                       (ExpertBranches Demo.two_expert_actions)
              = Ok (Real Demo.two_sample_discrete_loss))
    by reflexivity.
  split; [exact Hc|]. split; [exact He|]. split; [exact H|].
  exact (discrete_loss_not_negative _ _ _ _ _ Hc He H).
Defined.

Lemma discrete_loss_of_one_sample_witness :
  use_continuous_act (policy Demo.discrete_module) = false
  /\ _behavioral_cloning_loss Demo.discrete_module [[1]]%R
                              Demo.one_log_probs
                              (ExpertBranches Demo.one_expert_actions)
     = Ok (Real Demo.one_sample_discrete_loss)
  /\ Demo.one_sample_discrete_loss = 0%R.
Proof.
  assert (Hc : use_continuous_act (policy Demo.discrete_module) = false)
    by reflexivity.
  assert (H : _behavioral_cloning_loss Demo.discrete_module [[1]]%R
                                       Demo.one_log_probs
                                       (ExpertBranches Demo.one_expert_actions)
              = Ok (Real Demo.one_sample_discrete_loss))
    by reflexivity.
  split; [exact Hc|]. split; [exact H|].
  exact (discrete_loss_of_one_sample Demo.discrete_module [[1]]%R
                                     [ln (1 / 4); ln (3 / 4)]%R
                                     Demo.one_expert_actions _ Hc H).
Defined.

Lemma annealed_updates_witness :
  Forall (fun lr => lr <= 0)%Q [0; -1 # 2]%Q
  /\ updates [0; -1 # 2]%Q (snd Demo.trained)
     = Ok ([[("Losses/Pretraining Loss"%string, PyInt 0)];
            [("Losses/Pretraining Loss"%string, PyInt 0)]],
           {| this := set_current_lr (set_current_lr (this (snd Demo.trained)) 0)
                                     (-1 # 2);
              random_state := random_state (snd Demo.trained);
              calls := calls (snd Demo.trained) |}).
Proof.
  assert (H : Forall (fun lr => lr <= 0)%Q [0; -1 # 2]%Q)
    by (repeat constructor; unfold Qle; simpl; lia).
  split; [exact H|].
  exact (annealed_updates [0; -1 # 2]%Q (snd Demo.trained) H).
Defined.
